(** * The authenticated streaming API client of the chat frontend

  A shallow embedding of

  - [frontend/src/utils/api.js]: the axios instance [api] with its request
    and response interceptors, and the stream helper [streamChat];
  - the [Chat] page (the component [Chat] in [src/unnamed/part_005], whose
    line numbers are the ones quoted): [handleSendMessage] and the three
    callbacks it hands to [streamChat];
  - [frontend/src/context/AuthContext.jsx]: the continuations of [login]
    and [logout] that write the credential store.

  Conventions.  Text is a byte string ([string]), the UTF-8 bytes of its
  characters; the bytes of a read become text through [Stream.decode], the
  decoder of [TextDecoder]; [localStorage] is a
  finite map from keys to strings; a JavaScript value that comes out of
  [JSON.parse] is a [jsval].  Asynchronous code is cut at its [await]s:
  each piece between two suspensions is one function, run to completion
  before anything else observes the state it shares. *)

From Stdlib Require Import ZArith Ascii String Bool Lia.
From stdpp Require Import base strings pretty gmap list.

Local Open Scope Z_scope.
Local Set Warnings "-register-all".

(* ===================================================================== *)
(** * Text primitives                                                     *)
(* ===================================================================== *)

Module Text.

Definition nl : ascii := "010"%char.
Definition dq : ascii := "034"%char.
Definition backslash : ascii := "092"%char.

Definition chr (c : ascii) : string := String c EmptyString.

(** [s.split('\n')]: always at least one piece; a trailing newline leaves
    a last empty piece. *)
Fixpoint split_nl (s : string) : list string :=
  match s with
  | EmptyString => [EmptyString]
  | String c r =>
      if Ascii.eqb c nl then EmptyString :: split_nl r
      else match split_nl r with
           | l :: ls => String c l :: ls
           | [] => [chr c]
           end
  end.

(** [s.startsWith(p)] *)
Fixpoint startsWith (s p : string) : bool :=
  match p with
  | EmptyString => true
  | String a p' =>
      match s with
      | String b s' => Ascii.eqb a b && startsWith s' p'
      | EmptyString => false
      end
  end.

(** [s.slice(n)] for a non-negative [n] *)
Fixpoint slice (n : nat) (s : string) : string :=
  match n with
  | O => s
  | S n' => match s with
            | EmptyString => EmptyString
            | String _ r => slice n' r
            end
  end.

Definition is_empty (s : string) : bool :=
  match s with EmptyString => true | _ => false end.

(** A character that is not the line separator. *)
Fixpoint no_nl (s : string) : bool :=
  match s with
  | EmptyString => true
  | String c r => negb (Ascii.eqb c nl) && no_nl r
  end.

End Text.

(* ===================================================================== *)
(** * JavaScript values and [JSON.parse]                                  *)
(* ===================================================================== *)

Module Json.
Import Text.

(** A JSON number is kept as the exact decimal it denotes,
    [num_mant * 10 ^ num_exp]. *)
Record JNumber := mkNum { num_mant : Z; num_exp : Z }.

Inductive jsval :=
| JUndefined
| JNull
| JBool (b : bool)
| JNum (n : JNumber)
| JStr (s : string)
| JArr (items : list jsval)
| JObj (fields : list (string * jsval)).

Definition JInt (z : Z) : jsval := JNum (mkNum z 0).

(** ** Lexical helpers *)

Definition code (c : ascii) : nat := nat_of_ascii c.

Definition is_ws (c : ascii) : bool :=
  let n := code c in
  (Nat.eqb n 32 || Nat.eqb n 9 || Nat.eqb n 10 || Nat.eqb n 13)%bool.

Fixpoint skip_ws (s : string) : string :=
  match s with
  | String c r => if is_ws c then skip_ws r else s
  | EmptyString => s
  end.

Definition is_digit (c : ascii) : bool :=
  (Nat.leb 48 (code c) && Nat.leb (code c) 57)%bool.

Definition digit_val (c : ascii) : Z := Z.of_nat (code c) - 48.

Definition hex_val (c : ascii) : option nat :=
  let n := code c in
  if (Nat.leb 48 n && Nat.leb n 57)%bool then Some (n - 48)%nat
  else if (Nat.leb 65 n && Nat.leb n 70)%bool then Some (n - 55)%nat
  else if (Nat.leb 97 n && Nat.leb n 102)%bool then Some (n - 87)%nat
  else None.

(** The bytes of one UTF-16 code unit written as UTF-8 (a surrogate is
    written on its own, unit by unit). *)
Definition utf8_of_unit (n : nat) : string :=
  if Nat.ltb n 128 then chr (ascii_of_nat n)
  else if Nat.ltb n 2048 then
    String (ascii_of_nat (192 + n / 64))
      (chr (ascii_of_nat (128 + n mod 64)))
  else
    String (ascii_of_nat (224 + n / 4096))
      (String (ascii_of_nat (128 + (n / 64) mod 64))
         (chr (ascii_of_nat (128 + n mod 64)))).

Definition unescape (e : ascii) : option ascii :=
  let n := code e in
  if Nat.eqb n 34 then Some dq                       (* quote *)
  else if Nat.eqb n 92 then Some backslash           (* backslash *)
  else if Nat.eqb n 47 then Some "/"%char
  else if Nat.eqb n 98 then Some "008"%char          (* b *)
  else if Nat.eqb n 102 then Some "012"%char         (* f *)
  else if Nat.eqb n 110 then Some "010"%char         (* n *)
  else if Nat.eqb n 114 then Some "013"%char         (* r *)
  else if Nat.eqb n 116 then Some "009"%char         (* t *)
  else None.

(** ** The parser

    Three outcomes, so that running out of fuel is never mistaken for the
    [SyntaxError] that [JSON.parse] throws. *)
Inductive outcome (A : Type) :=
| Parsed (a : A) (rest : string)
| Malformed
| Exhausted.
Arguments Parsed {A} a rest.
Arguments Malformed {A}.
Arguments Exhausted {A}.

(** The characters of a string literal, after its opening quote. *)
Fixpoint parse_chars (s : string) : outcome string :=
  match s with
  | EmptyString => Malformed
  | String c r =>
      if Ascii.eqb c dq then Parsed EmptyString r
      else if Ascii.eqb c backslash then
        match r with
        | String e r1 =>
            if Ascii.eqb e "u"%char then
              match r1 with
              | String h1 (String h2 (String h3 (String h4 r2))) =>
                  match hex_val h1, hex_val h2, hex_val h3, hex_val h4 with
                  | Some a, Some b, Some c', Some d =>
                      match parse_chars r2 with
                      | Parsed t rest =>
                          Parsed
                            (utf8_of_unit (a * 4096 + b * 256 + c' * 16 + d)
                               +:+ t) rest
                      | o => o
                      end
                  | _, _, _, _ => Malformed
                  end
              | _ => Malformed
              end
            else
              match unescape e with
              | Some x =>
                  match parse_chars r1 with
                  | Parsed t rest => Parsed (String x t) rest
                  | o => o
                  end
              | None => Malformed
              end
        | EmptyString => Malformed
        end
      else if Nat.ltb (code c) 32 then Malformed
      else
        match parse_chars r with
        | Parsed t rest => Parsed (String c t) rest
        | o => o
        end
  end.

Fixpoint read_digits (acc : Z) (cnt : nat) (s : string) : Z * nat * string :=
  match s with
  | String c r =>
      if is_digit c then read_digits (10 * acc + digit_val c) (S cnt) r
      else (acc, cnt, s)
  | EmptyString => (acc, cnt, s)
  end.

(** The four parts of a number: [-? int frac? exp?]. *)
Definition take_sign (s : string) : bool * string :=
  match s with
  | String c r => if Ascii.eqb c "-"%char then (true, r) else (false, s)
  | EmptyString => (false, s)
  end.

(** A single zero, or a digit other than zero followed by digits. *)
Definition take_int (s : string) : option (Z * string) :=
  match s with
  | String c r =>
      if Ascii.eqb c "0"%char then Some (0, r)
      else if is_digit c then
        let '(v, _, rest) := read_digits 0 0 s in Some (v, rest)
      else None
  | EmptyString => None
  end.

(** The digits after the point extend the mantissa; their number is
    returned with it. *)
Definition take_frac (iv : Z) (s : string) : option (Z * nat * string) :=
  match s with
  | String c r =>
      if Ascii.eqb c "."%char then
        let '(v, n, rest) := read_digits iv 0 r in
        match n with O => None | _ => Some (v, n, rest) end
      else Some (iv, O, s)
  | EmptyString => Some (iv, O, s)
  end.

Definition take_exp (s : string) : option (Z * string) :=
  match s with
  | String c r =>
      if (Ascii.eqb c "e"%char || Ascii.eqb c "E"%char)%bool then
        let '(eneg, r1) :=
          match r with
          | String sg r' =>
              if Ascii.eqb sg "-"%char then (true, r')
              else if Ascii.eqb sg "+"%char then (false, r')
              else (false, r)
          | EmptyString => (false, r)
          end in
        let '(ev, n, rest) := read_digits 0 0 r1 in
        match n with
        | O => None
        | _ => Some (if eneg then - ev else ev, rest)
        end
      else Some (0, s)
  | EmptyString => Some (0, s)
  end.

Definition parse_number (s : string) : outcome JNumber :=
  let '(neg, s1) := take_sign s in
  match take_int s1 with
  | None => Malformed
  | Some (iv, s2) =>
      match take_frac iv s2 with
      | None => Malformed
      | Some (mv, fd, s3) =>
          match take_exp s3 with
          | None => Malformed
          | Some (ev, s4) =>
              Parsed (mkNum (if neg then - mv else mv) (ev - Z.of_nat fd)) s4
          end
      end
  end.

(** [expect w s]: [s] with the literal word [w] removed from its front. *)
Definition expect (w s : string) : option string :=
  if startsWith s w then Some (slice (String.length w) s) else None.

Fixpoint parse_value (fuel : nat) (s : string) : outcome jsval :=
  match fuel with
  | O => Exhausted
  | S f =>
      match skip_ws s with
      | EmptyString => Malformed
      | String c r =>
          if Ascii.eqb c "{"%char then
            match skip_ws r with
            | String c1 r1 =>
                if Ascii.eqb c1 "}"%char then Parsed (JObj []) r1
                else
                  match parse_members f (skip_ws r) with
                  | Parsed kvs rest => Parsed (JObj kvs) rest
                  | Malformed => Malformed
                  | Exhausted => Exhausted
                  end
            | EmptyString => Malformed
            end
          else if Ascii.eqb c "["%char then
            match skip_ws r with
            | String c1 r1 =>
                if Ascii.eqb c1 "]"%char then Parsed (JArr []) r1
                else
                  match parse_elements f (skip_ws r) with
                  | Parsed vs rest => Parsed (JArr vs) rest
                  | Malformed => Malformed
                  | Exhausted => Exhausted
                  end
            | EmptyString => Malformed
            end
          else if Ascii.eqb c dq then
            match parse_chars r with
            | Parsed t rest => Parsed (JStr t) rest
            | Malformed => Malformed
            | Exhausted => Exhausted
            end
          else if Ascii.eqb c "t"%char then
            match expect "true" (String c r) with
            | Some rest => Parsed (JBool true) rest
            | None => Malformed
            end
          else if Ascii.eqb c "f"%char then
            match expect "false" (String c r) with
            | Some rest => Parsed (JBool false) rest
            | None => Malformed
            end
          else if Ascii.eqb c "n"%char then
            match expect "null" (String c r) with
            | Some rest => Parsed JNull rest
            | None => Malformed
            end
          else
            match parse_number (String c r) with
            | Parsed n rest => Parsed (JNum n) rest
            | Malformed => Malformed
            | Exhausted => Exhausted
            end
      end
  end

(** one or more values separated by commas, up to the closing bracket *)
with parse_elements (fuel : nat) (s : string) : outcome (list jsval) :=
  match fuel with
  | O => Exhausted
  | S f =>
      match parse_value f s with
      | Parsed v r =>
          match skip_ws r with
          | String c r1 =>
              if Ascii.eqb c ","%char then
                match parse_elements f r1 with
                | Parsed vs rest => Parsed (v :: vs) rest
                | o => o
                end
              else if Ascii.eqb c "]"%char then Parsed [v] r1
              else Malformed
          | EmptyString => Malformed
          end
      | Malformed => Malformed
      | Exhausted => Exhausted
      end
  end

(** one or more [key : value] members, up to the closing brace *)
with parse_members (fuel : nat) (s : string)
  : outcome (list (string * jsval)) :=
  match fuel with
  | O => Exhausted
  | S f =>
      match skip_ws s with
      | String c r =>
          if Ascii.eqb c dq then
            match parse_chars r with
            | Parsed k r1 =>
                match skip_ws r1 with
                | String c2 r2 =>
                    if Ascii.eqb c2 ":"%char then
                      match parse_value f r2 with
                      | Parsed v r3 =>
                          match skip_ws r3 with
                          | String c4 r4 =>
                              if Ascii.eqb c4 ","%char then
                                match parse_members f r4 with
                                | Parsed kvs rest => Parsed ((k, v) :: kvs) rest
                                | o => o
                                end
                              else if Ascii.eqb c4 "}"%char
                              then Parsed [(k, v)] r4
                              else Malformed
                          | EmptyString => Malformed
                          end
                      | Malformed => Malformed
                      | Exhausted => Exhausted
                      end
                    else Malformed
                | EmptyString => Malformed
                end
            | Malformed => Malformed
            | Exhausted => Exhausted
            end
          else Malformed
      | EmptyString => Malformed
      end
  end.

Definition parse_fuel (s : string) : nat := (2 * String.length s + 2)%nat.

Definition parse_document (s : string) : outcome jsval :=
  match parse_value (parse_fuel s) s with
  | Parsed v rest =>
      if is_empty (skip_ws rest) then Parsed v rest else Malformed
  | o => o
  end.

(** [JSON.parse(s)]: [None] stands for the thrown [SyntaxError]. *)
Definition JSON_parse (s : string) : option jsval :=
  match parse_document s with
  | Parsed v _ => Some v
  | _ => None
  end.

(** ** Operations on values *)

(** A number is falsy when the double nearest to it is zero: the decimal
    is zero, or it lies at or below half the least subnormal, [2^-1075]. *)
Definition num_is_zero (n : JNumber) : bool :=
  if num_mant n =? 0 then true
  else if 0 <=? num_exp n then false
  else Z.abs (num_mant n) * 2 ^ 1075 <=? 10 ^ (- num_exp n).

(** ToBoolean *)
Definition truthy (v : jsval) : bool :=
  match v with
  | JUndefined | JNull => false
  | JBool b => b
  | JNum n => negb (num_is_zero n)
  | JStr s => negb (is_empty s)
  | JArr _ | JObj _ => true
  end.

(** The last binding of a key wins, as in [JSON.parse]. *)
Fixpoint lookup_field (k : string) (fs : list (string * jsval)) : option jsval :=
  match fs with
  | [] => None
  | (k', v) :: r =>
      match lookup_field k r with
      | Some w => Some w
      | None => if String.eqb k k' then Some v else None
      end
  end.

(** [v.k] for a [v] that is neither [null] nor [undefined] and a [k] that
    no prototype defines: [undefined] unless [v] is an object holding it. *)
Definition get_prop (v : jsval) (k : string) : jsval :=
  match v with
  | JObj fs => default JUndefined (lookup_field k fs)
  | _ => JUndefined
  end.

(** Property access on [null] or [undefined] throws a [TypeError]. *)
Definition is_nullish (v : jsval) : bool :=
  match v with JUndefined | JNull => true | _ => false end.

Section ToString.
(** [Number::toString] works on doubles and is left to the platform. *)
Variable Number_toString : JNumber -> string.

Fixpoint ToString (v : jsval) : string :=
  match v with
  | JUndefined => "undefined"
  | JNull => "null"
  | JBool true => "true"
  | JBool false => "false"
  | JNum n => Number_toString n
  | JStr s => s
  | JArr l =>
      (fix join (l : list jsval) : string :=
         match l with
         | [] => EmptyString
         | x :: r =>
             let e := if is_nullish x then EmptyString else ToString x in
             match r with
             | [] => e
             | _ => e +:+ "," +:+ join r
             end
         end) l
  | JObj _ => "[object Object]"
  end.
End ToString.

End Json.

(* ===================================================================== *)
(** * The credential store: [localStorage]                                *)
(* ===================================================================== *)

Module Store.
Import Text.

(** [localStorage.getItem(k)]: [None] is [null]. *)
Definition getItem (k : string) (st : gmap string string) : option string :=
  st !! k.

Definition setItem (k v : string) (st : gmap string string)
  : gmap string string := <[k := v]> st.

Definition removeItem (k : string) (st : gmap string string)
  : gmap string string := delete k st.

(** [if (token)] on the result of [getItem]: [null] and the empty string
    are falsy. *)
Definition present (o : option string) : bool :=
  match o with
  | Some s => negb (is_empty s)
  | None => false
  end.

(** What every reader of the store can see of the credential pair. *)
Definition cred_view (st : gmap string string) : option string * option string :=
  (getItem "access_token" st, getItem "refresh_token" st).

End Store.

(* ===================================================================== *)
(** * [api.js]: the dispatcher and its interceptors                       *)
(* ===================================================================== *)

Module Api.
Import Text Json Store.

(** The call descriptor: an axios request config.  [_retry] is the
    single-use flag the response interceptor sets. *)
Record Config := mkConfig {
  method : string;
  url : string;
  data : jsval;
  headers : gmap string string;
  _retry : bool
}.

Definition set_header (k v : string) (c : Config) : Config :=
  mkConfig (method c) (url c) (data c) (<[k := v]> (headers c)) (_retry c).

Definition set_retry (c : Config) : Config :=
  mkConfig (method c) (url c) (data c) (headers c) true.

(** What the network answers to one request: a status line with a parsed
    body, or nothing at all (the request fails without a response). *)
Inductive NetReply :=
| Answer (status : nat) (body : jsval)
| NoAnswer.

(** axios' default [validateStatus] *)
Definition ok_status (n : nat) : bool := (Nat.leb 200 n && Nat.ltb n 300)%bool.

(** The [error] object handed to the response interceptor.  [error.config]
    is the very object [originalRequest] names, so the error is rebuilt
    from the descriptor whenever the descriptor changes. *)
Record AxiosError := mkError {
  err_config : Config;
  err_status : option nat          (* [error.response?.status] *)
}.

Inductive Result :=
| Fulfilled (status : nat) (body : jsval)
| Rejected (e : AxiosError).

(** Where one call of [api(config)] is suspended. *)
Inductive Phase :=
| AwaitResponse (cfg : Config)                       (* request in flight *)
| AwaitRefresh (cfg : Config) (status : option nat)  (* line 36 *)
| Settled (r : Result).

(** What a call does to the outside world. *)
Inductive Event :=
| ESend (cfg : Config)              (* [api] transmits a request *)
| ERefresh (refresh_token : string) (* bare [axios.post] to /auth/refresh *)
| ERedirect.                        (* [window.location.href = '/login'] *)

Definition is_refresh (e : Event) : bool :=
  match e with ERefresh _ => true | _ => false end.
Definition is_send (e : Event) : bool :=
  match e with ESend _ => true | _ => false end.
Definition is_redirect (e : Event) : bool :=
  match e with ERedirect => true | _ => false end.

Fixpoint count (p : Event -> bool) (evs : list Event) : nat :=
  match evs with
  | [] => O
  | e :: rest => ((if p e then 1 else 0) + count p rest)%nat
  end.

(** The descriptor a call is working on, while it has one. *)
Definition descriptor (ph : Phase) : option Config :=
  match ph with
  | AwaitResponse cfg | AwaitRefresh cfg _ => Some cfg
  | Settled (Rejected e) => Some (err_config e)
  | Settled (Fulfilled _ _) => None
  end.

Definition is_settled (ph : Phase) : bool :=
  match ph with Settled _ => true | _ => false end.

(** How many refresh exchanges, transmissions and resumptions a call in a
    given phase still has in it. *)
Definition refresh_budget (ph : Phase) : nat :=
  match ph with
  | AwaitResponse c | AwaitRefresh c _ => if _retry c then 0 else 1
  | Settled _ => 0
  end.

Definition send_budget (ph : Phase) : nat :=
  match ph with
  | AwaitResponse c => if _retry c then 0 else 1
  | AwaitRefresh c _ => if _retry c then 1 else 2
  | Settled _ => 0
  end.

Definition steps_left (ph : Phase) : nat :=
  match ph with
  | AwaitResponse c => if _retry c then 1 else 3
  | AwaitRefresh c _ => if _retry c then 2 else 4
  | Settled _ => 0
  end.

(** The session is lost: both credentials gone and the page sent to the
    login route. *)
Definition SessionInvalidated (store : gmap string string) (evs : list Event)
  : Prop :=
  cred_view store = (None, None) /\ count is_redirect evs <> O.

Section WithPlatform.
Variable Number_toString : JNumber -> string.

Local Abbreviation ToString := (Json.ToString Number_toString).

(** Lines 13-22: the request interceptor. *)
Definition request_interceptor (store : gmap string string) (config : Config)
  : Config :=
  match getItem "access_token" store with
  | Some token =>
      if is_empty token then config
      else set_header "Authorization" ("Bearer " +:+ token) config
  | None => config
  end.

(** [api(config)]: run the request interceptor, transmit, suspend. *)
Definition api (config : Config) (store : gmap string string)
  : Phase * list Event :=
  let config' := request_interceptor store config in
  (AwaitResponse config', [ESend config']).

(** Lines 47-51 followed by line 54: the [catch] block, then the rejection
    with the original error. *)
Definition refresh_failed (originalRequest : Config) (status : option nat)
    (store : gmap string string) : Phase * gmap string string * list Event :=
  (Settled (Rejected (mkError originalRequest status)),
   removeItem "refresh_token" (removeItem "access_token" store),
   [ERedirect]).

(** Lines 27-36 and 54: the error handler of the response interceptor, up
    to its first suspension. *)
Definition response_error (config : Config) (status : option nat)
    (store : gmap string string) : Phase * gmap string string * list Event :=
  let originalRequest := config in
  if (bool_decide (status = Some 401%nat) && negb (_retry originalRequest))%bool
  then
    let originalRequest := set_retry originalRequest in
    match getItem "refresh_token" store with
    | Some refreshToken =>
        if is_empty refreshToken
        then (Settled (Rejected (mkError originalRequest status)), store, [])
        else (AwaitRefresh originalRequest status, store, [ERefresh refreshToken])
    | None => (Settled (Rejected (mkError originalRequest status)), store, [])
    end
  else (Settled (Rejected (mkError originalRequest status)), store, []).

(** Lines 26-27: a response arrives for the request in flight. *)
Definition on_response (config : Config) (reply : NetReply)
    (store : gmap string string) : Phase * gmap string string * list Event :=
  match reply with
  | Answer status body =>
      if ok_status status then (Settled (Fulfilled status body), store, [])
      else response_error config (Some status) store
  | NoAnswer => response_error config None store
  end.

(** Lines 36-51: the refresh exchange comes back.  It was issued with the
    bare [axios.post], so its failure lands in the [catch] block and never
    in [response_error]. *)
Definition on_refresh (originalRequest : Config) (status : option nat)
    (reply : NetReply) (store : gmap string string)
  : Phase * gmap string string * list Event :=
  match reply with
  | Answer st body =>
      if ok_status st then
        if is_nullish body
        then refresh_failed originalRequest status store   (* destructuring throws *)
        else
          let access_token := get_prop body "access_token" in
          let refresh_token := get_prop body "refresh_token" in
          let store := setItem "access_token" (ToString access_token) store in
          let store := setItem "refresh_token" (ToString refresh_token) store in
          let originalRequest :=
            set_header "Authorization" ("Bearer " +:+ ToString access_token)
              originalRequest in
          let '(ph, evs) := api originalRequest store in
          (ph, store, evs)
      else refresh_failed originalRequest status store
  | NoAnswer => refresh_failed originalRequest status store
  end.

(** One suspended call is resumed by the reply it waits for. *)
Definition resume (ph : Phase) (reply : NetReply) (store : gmap string string)
  : Phase * gmap string string * list Event :=
  match ph with
  | AwaitResponse cfg => on_response cfg reply store
  | AwaitRefresh cfg status => on_refresh cfg status reply store
  | Settled _ => (ph, store, [])
  end.

(** A call driven by the successive replies of the network. *)
Fixpoint run (ph : Phase) (store : gmap string string) (replies : list NetReply)
  : Phase * gmap string string * list Event :=
  match replies with
  | [] => (ph, store, [])
  | r :: rs =>
      let '(ph1, store1, evs1) := resume ph r store in
      let '(ph2, store2, evs2) := run ph1 store1 rs in
      (ph2, store2, evs1 ++ evs2)
  end.

Definition call (config : Config) (store : gmap string string)
    (replies : list NetReply) : Phase * gmap string string * list Event :=
  let '(ph, evs) := api config store in
  let '(ph', store', evs') := run ph store replies in
  (ph', store', evs ++ evs').

(** ** Several calls in flight over one store

    The credential store is the one thing calls share.  Between two
    suspensions a call runs alone, so the system moves by whole actions. *)

Record System := mkSystem {
  sys_store : gmap string string;
  sys_calls : list Phase
}.

Inductive Action :=
| Start (config : Config)               (* a component calls [api(config)] *)
| Deliver (i : nat) (reply : NetReply)  (* the network answers call [i] *)
| LoginStored (body : jsval)            (* AuthContext, lines 45-48 and 68-71 *)
| SessionCleared.                       (* AuthContext, lines 34-35 and 88-89 *)

(** AuthContext [login] and [register] after their [await]: destructure the
    response body and store both credentials.  A nullish body throws before
    anything is written. *)
Definition login_stored (body : jsval) (store : gmap string string)
  : gmap string string :=
  if is_nullish body then store
  else
    let store := setItem "access_token" (ToString (get_prop body "access_token")) store in
    setItem "refresh_token" (ToString (get_prop body "refresh_token")) store.

(** AuthContext [logout] and the failure branch of [checkAuth]. *)
Definition session_cleared (store : gmap string string) : gmap string string :=
  removeItem "refresh_token" (removeItem "access_token" store).

Definition act (a : Action) (s : System) : System * list Event :=
  match a with
  | Start config =>
      let '(ph, evs) := api config (sys_store s) in
      (mkSystem (sys_store s) (sys_calls s ++ [ph]), evs)
  | Deliver i reply =>
      match sys_calls s !! i with
      | Some ph =>
          let '(ph', store', evs) := resume ph reply (sys_store s) in
          (mkSystem store' (<[i := ph']> (sys_calls s)), evs)
      | None => (s, [])
      end
  | LoginStored body => (mkSystem (login_stored body (sys_store s)) (sys_calls s), [])
  | SessionCleared => (mkSystem (session_cleared (sys_store s)) (sys_calls s), [])
  end.

Fixpoint schedule (acts : list Action) (s : System) : System * list Event :=
  match acts with
  | [] => (s, [])
  | a :: rest =>
      let '(s1, evs1) := act a s in
      let '(s2, evs2) := schedule rest s1 in
      (s2, evs1 ++ evs2)
  end.

(** The credential pair a response body carries, as it would be stored. *)
Definition pair_of (body : jsval) : option string * option string :=
  (Some (ToString (get_prop body "access_token")),
   Some (ToString (get_prop body "refresh_token"))).

(** The bodies of the successful responses delivered during a schedule,
    by the network or to the login form. *)
Definition carries_pair (a : Action) : option jsval :=
  match a with
  | Deliver _ (Answer st body) =>
      if (ok_status st && negb (is_nullish body))%bool then Some body else None
  | LoginStored body => if is_nullish body then None else Some body
  | _ => None
  end.

Definition delivered (acts : list Action) : list jsval :=
  omap carries_pair acts.

End WithPlatform.
End Api.

(* ===================================================================== *)
(** * [api.js]: the stream helper [streamChat]                            *)
(* ===================================================================== *)

Module Stream.
Import Text Json Store.

(** The first argument of [streamChat]. *)
Record ChatData := mkChatData {
  message : string;
  conversation_id : jsval;     (* [currentConversation?.id] *)
  model : string
}.

(** The request handed to [fetch]; the body is kept before
    [JSON.stringify]: [{ ...data, stream: true }]. *)
Record FetchRequest := mkFetch {
  fetch_url : string;
  fetch_method : string;
  fetch_headers : gmap string string;
  fetch_body : ChatData;
  fetch_stream : bool
}.

(** One [await reader.read()] that does not signal the end. *)
Inductive Read :=
| Chunk (value : string)
| ReadError (msg : string).

(** The body of a response that is not ok, seen through
    [await response.json()]. *)
Inductive ErrorBody :=
| BodyJson (error : jsval)
| BodyInvalid (msg : string).

Inductive FetchOutcome :=
| FetchFailed (msg : string)       (* [fetch] rejects *)
| FetchNotOk (body : ErrorBody)    (* [!response.ok] *)
| FetchOk (source : list Read).    (* the reads, up to [done] *)

(** Line 3, when the build sets no [VITE_API_URL]. *)
Definition API_URL : string := "/api/v1".

(** Lines 95-105.  The template literal prints a missing token as
    [null]. *)
Definition streamChat_request (store : gmap string string) (data : ChatData)
  : FetchRequest :=
  let token := getItem "access_token" store in
  mkFetch (API_URL +:+ "/chat/send") "POST"
    (<["Authorization" := "Bearer " +:+ default "null" token]>
       (<["Content-Type" := "application/json"]> ∅))
    data true.

(** ** [new TextDecoder()]: UTF-8, not fatal, byte order mark not ignored

    Text is kept as the UTF-8 bytes of its characters, so decoding copies
    every well-formed sequence and writes U+FFFD for each ill-formed piece.
    [decode] is called without [{ stream: true }] (line 119): every call
    starts with a fresh decoder and is flushed at its end. *)

(** U+FFFD and U+FEFF, as UTF-8. *)
Definition replacement : string :=
  String "239" (String "191" (String "189" EmptyString)).
Definition byte_order_mark : string :=
  String "239" (String "187" (String "191" EmptyString)).

Definition between (lo hi n : nat) : bool := (Nat.leb lo n && Nat.leb n hi)%bool.

(** The continuation bytes a lead byte announces; [0] for a byte that
    cannot lead. *)
Definition lead_needs (n : nat) : nat :=
  if between 194 223 n then 1
  else if between 224 239 n then 2
  else if between 240 244 n then 3
  else 0.

(** The range of the next continuation byte: narrowed right after the
    leads [E0], [ED], [F0] and [F4], and [80..BF] otherwise. *)
Definition continuation_bounds (pending : string) : nat * nat :=
  match pending with
  | String lead EmptyString =>
      let n := nat_of_ascii lead in
      if Nat.eqb n 224 then (160, 191)
      else if Nat.eqb n 237 then (128, 159)
      else if Nat.eqb n 240 then (144, 191)
      else if Nat.eqb n 244 then (128, 143)
      else (128, 191)
  | _ => (128, 191)
  end%nat.

(** A byte met when no sequence is open: what is written, the bytes of the
    sequence it opens and the number of bytes still needed. *)
Definition idle_step (c : ascii) : string * string * nat :=
  let n := nat_of_ascii c in
  if Nat.ltb n 128 then (chr c, EmptyString, O)
  else match lead_needs n with
       | O => (replacement, EmptyString, O)
       | k => (EmptyString, chr c, k)
       end.

(** The UTF-8 decoder of the Encoding standard.  A byte outside the
    expected range ends the open sequence with U+FFFD and is then read
    again with no sequence open; the end of the input does the same to a
    sequence that is still open. *)
Fixpoint utf8_scan (pending : string) (needed : nat) (s : string) : string :=
  match s with
  | EmptyString => match needed with O => EmptyString | _ => replacement end
  | String c r =>
      match needed with
      | O => let '(out, p, k) := idle_step c in out +:+ utf8_scan p k r
      | Datatypes.S k =>
          let '(lo, hi) := continuation_bounds pending in
          if between lo hi (nat_of_ascii c) then
            match k with
            | O => (pending +:+ chr c) +:+ utf8_scan EmptyString O r
            | _ => utf8_scan (pending +:+ chr c) k r
            end
          else
            let '(out, p, k') := idle_step c in
            replacement +:+ (out +:+ utf8_scan p k' r)
      end
  end.

(** A leading U+FEFF is dropped from what a decoder writes first. *)
Definition strip_byte_order_mark (text : string) : string :=
  if startsWith text byte_order_mark then slice 3 text else text.

(** [new TextDecoder().decode(value)], as line 119 calls it. *)
Definition decode (value : string) : string :=
  strip_byte_order_mark (utf8_scan EmptyString O value).

(** The message of the [TypeError] raised by reading [detail] off [null]. *)
Definition null_detail_message : string :=
  "Cannot read properties of null (reading 'detail')".

Section WithCallbacks.
Variable Number_toString : JNumber -> string.
Context {S : Type}.
Variables onChunk onDone onError : jsval -> S -> S.

(** Lines 123-138: one iteration of the [for] loop. *)
Definition on_line (s : S) (line : string) : S :=
  if startsWith line "data: " then
    match JSON_parse (slice 6 line) with
    | Some data =>
        if is_nullish data then s         (* [TypeError], caught at line 135 *)
        else
          let s := if truthy (get_prop data "content")
                   then onChunk (get_prop data "content") s else s in
          let s := if truthy (get_prop data "done")
                   then onDone (get_prop data "conversation_id") s else s in
          if truthy (get_prop data "error")
          then onError (get_prop data "error") s else s
    | None => s                           (* [SyntaxError], caught at line 135 *)
    end
  else s.

(** Lines 119-139: one chunk. *)
Definition on_chunk (s : S) (value : string) : S :=
  let chunk := decode value in
  let lines := split_nl chunk in
  fold_left on_line lines s.

(** Lines 115-143: the read loop, and the outer [catch] when a read fails. *)
Fixpoint read_loop (source : list Read) (s : S) : S :=
  match source with
  | [] => s
  | Chunk value :: rest => read_loop rest (on_chunk s value)
  | ReadError msg :: _ => onError (JStr msg) s
  end.

(** Lines 107-143: what [streamChat] does once [fetch] has settled. *)
Definition streamChat (outcome : FetchOutcome) (s : S) : S :=
  match outcome with
  | FetchFailed msg => onError (JStr msg) s
  | FetchNotOk (BodyInvalid msg) => onError (JStr msg) s
  | FetchNotOk (BodyJson error) =>
      if is_nullish error then onError (JStr null_detail_message) s
      else
        let detail := get_prop error "detail" in
        let reason := if truthy detail then detail
                      else JStr "Failed to send message" in
        onError (JStr (ToString Number_toString reason)) s
  | FetchOk source => read_loop source s
  end.

End WithCallbacks.

(** ** The calls a stream makes, as data *)

Inductive Callback :=
| CChunk (content : jsval)
| CDone (conversation_id : jsval)
| CError (error : jsval).

Definition log_chunk (v : jsval) (l : list Callback) := l ++ [CChunk v].
Definition log_done (v : jsval) (l : list Callback) := l ++ [CDone v].
Definition log_error (v : jsval) (l : list Callback) := l ++ [CError v].

(** The callbacks one line triggers, in order. *)
Definition line_calls (line : string) : list Callback :=
  on_line log_chunk log_done log_error [] line.

(** The callbacks a whole stream triggers, in order. *)
Definition stream_calls (nts : JNumber -> string) (outcome : FetchOutcome)
  : list Callback :=
  streamChat nts log_chunk log_done log_error outcome [].

(** Making a recorded call on real callbacks. *)
Definition replay {S : Type} (onChunk onDone onError : jsval -> S -> S)
    (s : S) (c : Callback) : S :=
  match c with
  | CChunk v => onChunk v s
  | CDone v => onDone v s
  | CError v => onError v s
  end.

End Stream.

(* ===================================================================== *)
(** * The [Chat] page: the session controller                             *)
(* ===================================================================== *)

Module Chat.
Import Text Json Store Stream.

Record Message := mkMessage {
  id : Z;
  role : string;
  content : string;
  model_used : option string;
  created_at : string
}.

(** The React state of the component. *)
Record ChatState := mkChat {
  conversations : jsval;
  currentConversation : option jsval;     (* [None] is [null] *)
  messages : list Message;
  selectedModel : string;
  isLoading : bool;
  isStreaming : bool;
  render_failed : bool                    (* an updater threw *)
}.

(** The component together with the continuations it has left pending:
    the conversation identifiers waiting for [loadConversations()] to
    settle (line 395 of the page). *)
Record Session := mkSession {
  ui : ChatState;
  pending_adopt : list jsval
}.

(** The four readings of the clock one submission takes. *)
Record Clock := mkClock {
  user_now : Z; user_iso : string;
  assistant_now : Z; assistant_iso : string
}.

Definition with_messages (f : list Message -> option (list Message))
    (st : ChatState) : ChatState :=
  match f (messages st) with
  | Some ms =>
      mkChat (conversations st) (currentConversation st) ms (selectedModel st)
        (isLoading st) (isStreaming st) (render_failed st)
  | None =>
      mkChat (conversations st) (currentConversation st) (messages st)
        (selectedModel st) (isLoading st) (isStreaming st) true
  end.

Definition with_flags (loading streaming : bool) (st : ChatState) : ChatState :=
  mkChat (conversations st) (currentConversation st) (messages st)
    (selectedModel st) loading streaming (render_failed st).

Definition with_conversation (c : option jsval) (st : ChatState) : ChatState :=
  mkChat (conversations st) c (messages st) (selectedModel st)
    (isLoading st) (isStreaming st) (render_failed st).

Definition with_conversations (cs : jsval) (st : ChatState) : ChatState :=
  mkChat cs (currentConversation st) (messages st) (selectedModel st)
    (isLoading st) (isStreaming st) (render_failed st).

Definition on_ui (f : ChatState -> ChatState) (s : Session) : Session :=
  mkSession (f (ui s)) (pending_adopt s).

(** [prev => [...prev, m]] *)
Definition push (m : Message) (prev : list Message) : option (list Message) :=
  Some (prev ++ [m]).

(** The shape both stream updaters share: copy the list, take its last
    element, change it in place when it is the assistant's.  On an empty
    list the last element is [undefined] and reading its [role] throws. *)
Definition update_last (f : Message -> Message) (prev : list Message)
  : option (list Message) :=
  match last prev with
  | None => None
  | Some lastMsg =>
      if String.eqb (role lastMsg) "assistant"
      then Some (<[pred (length prev) := f lastMsg]> prev)
      else Some prev
  end.

Definition set_content (c : string) (m : Message) : Message :=
  mkMessage (id m) (role m) c (model_used m) (created_at m).

Section WithPlatform.
Variable Number_toString : JNumber -> string.

Local Abbreviation ToString := (Json.ToString Number_toString).

(** Lines 378-387 of the page: [onChunk]. *)
Definition onChunk (chunk : jsval) (s : Session) : Session :=
  on_ui (with_messages
           (update_last (fun m => set_content (content m +:+ ToString chunk) m))) s.

(** Lines 389-399: [onDone].  [snap] is the render the handler closed
    over. *)
Definition onDone (snap : ChatState) (conversationId : jsval) (s : Session)
  : Session :=
  let s := on_ui (with_flags false false) s in
  match currentConversation snap with
  | None => mkSession (ui s) (pending_adopt s ++ [conversationId])
  | Some _ => s
  end.

(** Lines 401-412: [onError]. *)
Definition onError (error : jsval) (s : Session) : Session :=
  let s := on_ui (with_flags false false) s in
  on_ui (with_messages
           (update_last (fun m => set_content ("Error: " +:+ ToString error) m))) s.

(** Lines 305-312 and 395-397: [loadConversations()] settles, with the
    list or with a failure it logs, and the pending [then] adopts the
    identifier. *)
Definition loadConversations_settled (response_data : option jsval)
    (s : Session) : Session :=
  let s := match response_data with
           | Some data => on_ui (with_conversations data) s
           | None => s
           end in
  match pending_adopt s with
  | [] => s
  | conversationId :: rest =>
      mkSession (with_conversation (Some (JObj [("id", conversationId)])) (ui s))
        rest
  end.

(** Lines 347-371: [handleSendMessage] up to the call of [streamChat].
    [snap] is the render whose values the callback closed over; the state
    updates apply to the current state.  The second component is the
    request [streamChat] opens, if any. *)
Definition handleSendMessage (snap : ChatState) (text : string) (clk : Clock)
    (store : gmap string string) (s : Session)
  : Session * option FetchRequest :=
  if (isLoading snap || isStreaming snap)%bool then (s, None)
  else
    let userMessage :=
      mkMessage (user_now clk) "user" text None (user_iso clk) in
    let s := on_ui (with_messages (push userMessage)) s in
    let s := on_ui (fun st => with_flags true (isStreaming st) st) s in
    let s := on_ui (fun st => with_flags (isLoading st) true st) s in
    let assistantMessage :=
      mkMessage (assistant_now clk + 1) "assistant" EmptyString
        (Some (selectedModel snap)) (assistant_iso clk) in
    let s := on_ui (with_messages (push assistantMessage)) s in
    (s, Some (streamChat_request store
                (mkChatData text
                   (match currentConversation snap with
                    | Some c => get_prop c "id"
                    | None => JUndefined
                    end)
                   (selectedModel snap)))).

(** [streamChat] with the three callbacks of the page. *)
Definition stream_turn (snap : ChatState) (outcome : FetchOutcome)
    (s : Session) : Session :=
  streamChat Number_toString onChunk (onDone snap) onError outcome s.

End WithPlatform.

(** A session at rest: nothing in flight, no conversation chosen yet. *)
Definition idle (convs : jsval) (ms : list Message) (model : string) : Session :=
  mkSession (mkChat convs None ms model false false false) [].

End Chat.

(* ===================================================================== *)
(** * [AuthContext.jsx]: the session of the signed-in user                *)
(* ===================================================================== *)

Module Auth.
Import Text Json Store.

(** The React state of [AuthProvider]; [JNull] is [null]. *)
Record AuthState := mkAuth {
  user : jsval;
  loading : bool;
  error : jsval
}.

(** Lines 15-17: the state the provider starts with. *)
Definition initial : AuthState := mkAuth JNull true JNull.

Definition set_user (u : jsval) (a : AuthState) : AuthState :=
  mkAuth u (loading a) (error a).
Definition set_loading (b : bool) (a : AuthState) : AuthState :=
  mkAuth (user a) b (error a).
Definition set_error (e : jsval) (a : AuthState) : AuthState :=
  mkAuth (user a) (loading a) e.

(** What an awaited call of [authAPI] settles to, as the [try] blocks see
    it: the body of the response, or a thrown error with its
    [err.response?.data] ([undefined] when there is no response). *)
Inductive Awaited :=
| Resolved (data : jsval)
| Thrown (response_data : jsval).

(** How an async function of the context ends for its caller. *)
Inductive Outcome :=
| Returned (value : jsval)
| Raised (message : string).

(** [err.response?.data?.detail] *)
Definition detail_of (response_data : jsval) : jsval :=
  if is_nullish response_data then JUndefined
  else get_prop response_data "detail".

(** [v || fallback] *)
Definition or_else (v : jsval) (fallback : string) : jsval :=
  if truthy v then v else JStr fallback.

(** [v === s] for a string literal [s] *)
Definition is_string (v : jsval) (s : string) : bool :=
  match v with
  | JStr t => String.eqb t s
  | _ => false
  end.

(** [user?.role] *)
Definition role_of (u : jsval) : jsval :=
  if is_nullish u then JUndefined else get_prop u "role".

(** Lines 108-110: the flags the provider hands out. *)
Definition isAuthenticated (a : AuthState) : bool := truthy (user a).
Definition isAdmin (a : AuthState) : bool := is_string (role_of (user a)) "admin".
Definition isPremium (a : AuthState) : bool :=
  (is_string (role_of (user a)) "premium"
   || is_string (role_of (user a)) "admin")%bool.

(** Lines 23-28: [checkAuth] up to its [await].  The second component
    tells whether [authAPI.getMe()] is called. *)
Definition checkAuth_start (store : gmap string string) (a : AuthState)
  : AuthState * bool :=
  match getItem "access_token" store with
  | Some token =>
      if is_empty token then (set_loading false a, false) else (a, true)
  | None => (set_loading false a, false)
  end.

(** Lines 30-38: [checkAuth] after its [await]. *)
Definition checkAuth_settled (r : Awaited) (store : gmap string string)
    (a : AuthState) : AuthState * gmap string string :=
  match r with
  | Resolved data => (set_loading false (set_user data a), store)
  | Thrown _ =>
      (set_loading false a,
       removeItem "refresh_token" (removeItem "access_token" store))
  end.

(** Lines 42 and 60: [login] and [register] before their [await]. *)
Definition sign_in_start (a : AuthState) : AuthState := set_error JNull a.

(** Lines 82-92: [logout] after its [await]; the reply is not looked at. *)
Definition logout_settled (r : Awaited) (store : gmap string string)
    (a : AuthState) : AuthState * gmap string string :=
  (set_user JNull a,
   removeItem "refresh_token" (removeItem "access_token" store)).

Section WithPlatform.
Variable Number_toString : JNumber -> string.

Local Abbreviation ToString := (Json.ToString Number_toString).

(** The [catch] blocks of [login], [register] and [updateProfile]:
    [new Error(detail || fallback)]. *)
Definition failure_message (response_data : jsval) (fallback : string) : jsval :=
  or_else (detail_of response_data) fallback.

(** Lines 43-56 and 61-79: [login] and [register] after their [await];
    they differ in the fallback message only.  Destructuring a nullish body
    throws inside the [try], and that error has no [response]. *)
Definition sign_in_settled (fallback : string) (r : Awaited)
    (store : gmap string string) (a : AuthState)
  : AuthState * gmap string string * Outcome :=
  match r with
  | Resolved data =>
      if is_nullish data then
        let message := failure_message JUndefined fallback in
        (set_error message a, store, Raised (ToString message))
      else
        let store :=
          setItem "access_token" (ToString (get_prop data "access_token")) store in
        let store :=
          setItem "refresh_token" (ToString (get_prop data "refresh_token")) store in
        (set_user (get_prop data "user") a, store, Returned (get_prop data "user"))
  | Thrown response_data =>
      let message := failure_message response_data fallback in
      (set_error message a, store, Raised (ToString message))
  end.

Definition login_settled := sign_in_settled "Login failed".
Definition register_settled := sign_in_settled "Registration failed".

(** Lines 94-102: [updateProfile] after its [await]. *)
Definition updateProfile_settled (r : Awaited) (a : AuthState)
  : AuthState * Outcome :=
  match r with
  | Resolved data => (set_user data a, Returned data)
  | Thrown response_data =>
      (a, Raised (ToString (failure_message response_data "Update failed")))
  end.

End WithPlatform.
End Auth.

(* ===================================================================== *)
(** * The route guards of [App] and the [Login] page                      *)
(* ===================================================================== *)

Module Routes.
Import Text Json Auth.

(** What a guard renders. *)
Inductive View :=
| Spinner
| Children
| Navigate (to : string).

(** [ProtectedRoute] of [App] *)
Definition ProtectedRoute (a : AuthState) : View :=
  if loading a then Spinner
  else if isAuthenticated a then Children else Navigate "/login".

(** [PublicRoute] of [App] *)
Definition PublicRoute (a : AuthState) : View :=
  if loading a then Spinner
  else if isAuthenticated a then Navigate "/" else Children.

(** The state of the [Login] form. *)
Record LoginForm := mkLoginForm {
  form_error : string;
  form_loading : bool
}.

(** [handleSubmit] of [Login], before [await login(...)]. *)
Definition handleSubmit_start (f : LoginForm) : LoginForm :=
  mkLoginForm EmptyString true.

(** [handleSubmit] of [Login], after the [await]: where it navigates, if it
    does. *)
Definition handleSubmit_settled (o : Outcome) (f : LoginForm)
  : LoginForm * option string :=
  match o with
  | Returned _ => (mkLoginForm (form_error f) false, Some "/")
  | Raised message => (mkLoginForm message false, None)
  end.

End Routes.

(* ===================================================================== *)
(** * [Sidebar]: the active navigation item                               *)
(* ===================================================================== *)

Module Sidebar.
Import Text.

(** The paths of [navItems]. *)
Definition navItems : list string :=
  ["/"; "/documents"; "/workspaces"; "/developer"].

(** [isActive(path)] for [location.pathname = pathname] *)
Definition isActive (pathname path : string) : bool :=
  if String.eqb path "/"
  then (String.eqb pathname "/" || startsWith pathname "/chat")%bool
  else String.eqb pathname path.

End Sidebar.

(* ===================================================================== *)
(** * [Developer]: the permissions of a new key                           *)
(* ===================================================================== *)

Module Developer.
Import Json.

Record NewKey := mkNewKey {
  name : string;
  permissions : list string;
  expires_days : jsval
}.

(** The state [newKey] starts with. *)
Definition initial : NewKey := mkNewKey EmptyString ["chat"] JNull.

(** [togglePermission(perm)] as an update of [newKey] *)
Definition togglePermission (perm : string) (prev : NewKey) : NewKey :=
  mkNewKey (name prev)
    (if bool_decide (perm ∈ permissions prev)
     then filter (fun p => p <> perm) (permissions prev)
     else permissions prev ++ [perm])
    (expires_days prev).

End Developer.

(* ===================================================================== *)
(** * The [Chat] page: starting a new chat                                *)
(* ===================================================================== *)

Module ChatPage.
Import Json Chat.

(** [handleNewChat]: [setCurrentConversation(null); setMessages([])] *)
Definition handleNewChat (s : Session) : Session :=
  on_ui (with_messages (fun _ => Some [])) (on_ui (with_conversation None) s).

End ChatPage.

(* ===================================================================== *)
(** * Sample inputs                                                       *)
(* ===================================================================== *)

Module Samples.
Import Text Json Store Api Stream Chat.

Definition q : string := chr dq.
Definition eol : string := chr nl.

(** A number printer for the samples: the digits of an integer, as
    [Number::toString] prints integers below [2^53]. *)
Definition print_integer (n : JNumber) : string :=
  pretty (num_mant n * 10 ^ num_exp n).

(** One event cut in two by the transport. *)
Definition split_first : string := "data: {" +:+ q +:+ "cont".
Definition split_second : string :=
  "ent" +:+ q +:+ ":" +:+ q +:+ "hi" +:+ q +:+ "}" +:+ eol.

Definition content_line (c : string) : string :=
  "data: {" +:+ q +:+ "content" +:+ q +:+ ":" +:+ q +:+ c +:+ q +:+ "}".
Definition done_line_7 : string :=
  "data: {" +:+ q +:+ "done" +:+ q +:+ ":true," +:+ q +:+ "conversation_id"
    +:+ q +:+ ":7}".
Definition error_line (e : string) : string :=
  "data: {" +:+ q +:+ "error" +:+ q +:+ ":" +:+ q +:+ e +:+ q +:+ "}".
Definition bad_line : string := "data: {oops".

(** The three-line stream: content A, content B, done with identifier 7. *)
Definition abd_input : string :=
  content_line "A" +:+ eol +:+ content_line "B" +:+ eol +:+ done_line_7 +:+ eol.

Definition sample_clock : Clock := mkClock 1000 "t0" 1000 "t0".

Definition sample_config : Config :=
  mkConfig "get" "/auth/me" JUndefined
    (<["Content-Type" := "application/json"]> ∅) false.

Definition access_only : gmap string string := <["access_token" := "A0"]> ∅.
Definition both_tokens : gmap string string :=
  <["refresh_token" := "R0"]> (<["access_token" := "A0"]> ∅).

Definition token_body (a r : string) : jsval :=
  JObj [("access_token", JStr a); ("refresh_token", JStr r)].

(** The three-line stream delivered one line per read. *)
Definition abd_by_line : list Read :=
  [Chunk (content_line "A" +:+ eol);
   Chunk (content_line "B" +:+ eol);
   Chunk (done_line_7 +:+ eol)].

(** A session with one turn in flight. *)
Definition fresh_session : Session := idle JNull [] "llama".
Definition in_flight : Session :=
  (handleSendMessage (ui fresh_session) "hello" sample_clock access_only
     fresh_session).1.

End Samples.

(* ===================================================================== *)
(** * Facts about the JSON parser                                         *)
(* ===================================================================== *)

Module JsonFacts.
Import Text Json.

Lemma skip_ws_length (s : string) :
  (String.length (skip_ws s) <= String.length s)%nat.
Proof.
  induction s as [|c s IH]; simpl; [lia|].
  destruct (is_ws c); simpl; lia.
Qed.

Ltac break_match :=
  match goal with
  | |- context [match ?x with _ => _ end] => destruct x eqn:?
  | H : context [match ?x with _ => _ end] |- _ => destruct x eqn:?
  end.

Lemma parse_chars_length_aux (n : nat) :
  forall s t r, (String.length s <= n)%nat ->
    parse_chars s = Parsed t r -> (String.length r < String.length s)%nat.
Proof.
  induction n as [|n IH]; intros s t r Hn H.
  - destruct s; simpl in *; [discriminate|lia].
  - destruct s as [|c s]; simpl in H; [discriminate|].
    repeat break_match; try discriminate;
      injection H as <- <-; simpl in *;
      repeat match goal with
        | E : parse_chars ?x = Parsed _ _ |- _ =>
            apply IH in E; [|simpl in *; lia]
        end; simpl in *; lia.
Qed.

Lemma parse_chars_length (s t r : string) :
  parse_chars s = Parsed t r -> (String.length r < String.length s)%nat.
Proof. apply (parse_chars_length_aux (String.length s)). lia. Qed.

Lemma parse_chars_fuel_free_aux (n : nat) :
  forall s, (String.length s <= n)%nat -> parse_chars s <> Exhausted.
Proof.
  induction n as [|n IH]; intros s Hn H.
  - destruct s; simpl in *; [discriminate|lia].
  - destruct s as [|c s]; simpl in H; [discriminate|].
    repeat break_match; try discriminate;
      repeat match goal with
        | E : parse_chars ?x = Exhausted |- _ =>
            apply IH in E; [contradiction|simpl in *; lia]
        end.
Qed.

Lemma parse_chars_fuel_free (s : string) : parse_chars s <> Exhausted.
Proof. apply (parse_chars_fuel_free_aux (String.length s)). lia. Qed.

Lemma read_digits_length (s : string) :
  forall acc cnt v n r,
    read_digits acc cnt s = (v, n, r) ->
    (String.length r + n = String.length s + cnt)%nat /\ (cnt <= n)%nat.
Proof.
  induction s as [|c s IH]; simpl; intros acc cnt v n r H.
  - injection H as <- <- <-. simpl. lia.
  - destruct (is_digit c).
    + apply IH in H. lia.
    + injection H as <- <- <-. simpl. lia.
Qed.

Lemma take_sign_length s neg r :
  take_sign s = (neg, r) -> (String.length r <= String.length s)%nat.
Proof.
  unfold take_sign. intros H. repeat break_match; simplify_eq; simpl; lia.
Qed.

Lemma take_int_length s v r :
  take_int s = Some (v, r) -> (String.length r < String.length s)%nat.
Proof.
  unfold take_int. intros H. destruct s as [|c s]; [discriminate|].
  cbv beta iota in H.
  destruct (Ascii.eqb c "0"); [simplify_eq; simpl; lia|].
  destruct (is_digit c) eqn:D; [|discriminate].
  destruct (read_digits 0 0 (String c s)) as [[v' n] rest] eqn:E.
  simplify_eq. simpl in E. rewrite D in E.
  apply read_digits_length in E. simpl. lia.
Qed.

Lemma take_frac_length iv s v n r :
  take_frac iv s = Some (v, n, r) -> (String.length r <= String.length s)%nat.
Proof.
  unfold take_frac. intros H. destruct s as [|c s]; [simplify_eq; simpl; lia|].
  cbv beta iota in H.
  destruct (Ascii.eqb c "."); [|simplify_eq; simpl; lia].
  destruct (read_digits iv 0 s) as [[v' n'] rest] eqn:E.
  apply read_digits_length in E. destruct n'; simplify_eq. simpl. lia.
Qed.

Lemma take_exp_length s v r :
  take_exp s = Some (v, r) -> (String.length r <= String.length s)%nat.
Proof.
  unfold take_exp. intros H. destruct s as [|c s]; [simplify_eq; simpl; lia|].
  cbv beta iota in H.
  destruct (_ || _)%bool; [|simplify_eq; simpl; lia].
  destruct (match s with String sg r' => _ | EmptyString => _ end)
    as [eneg r1] eqn:E1.
  assert (String.length r1 <= String.length s)%nat.
  { destruct s as [|sg r']; [simplify_eq; simpl; lia|].
    repeat break_match; simplify_eq; simpl; lia. }
  destruct (read_digits 0 0 r1) as [[ev n] rest] eqn:E.
  apply read_digits_length in E. destruct n; simplify_eq. simpl. lia.
Qed.

Lemma parse_number_length (s : string) (x : JNumber) (r : string) :
  parse_number s = Parsed x r -> (String.length r < String.length s)%nat.
Proof.
  unfold parse_number. intros H.
  destruct (take_sign s) as [neg s1] eqn:E1.
  destruct (take_int s1) as [[iv s2]|] eqn:E2; [|discriminate].
  destruct (take_frac iv s2) as [[[mv fd] s3]|] eqn:E3; [|discriminate].
  destruct (take_exp s3) as [[ev s4]|] eqn:E4; [|discriminate].
  simplify_eq.
  apply take_sign_length in E1. apply take_int_length in E2.
  apply take_frac_length in E3. apply take_exp_length in E4. lia.
Qed.

Lemma parse_number_fuel_free (s : string) : parse_number s <> Exhausted.
Proof.
  unfold parse_number. intros H. repeat break_match; discriminate.
Qed.

Lemma expect_length (w s r : string) :
  expect w s = Some r ->
  (String.length r + String.length w = String.length s)%nat.
Proof.
  unfold expect. destruct (startsWith s w) eqn:E; [|discriminate].
  intros [= <-]. revert s E.
  induction w as [|a w IH]; intros s E; simpl in *; [lia|].
  destruct s as [|b s]; [discriminate|].
  apply andb_true_iff in E as [_ E]. specialize (IH s E). simpl. lia.
Qed.

(** Whatever is parsed consumes at least one character. *)
Lemma parse_consumes (f : nat) :
  (forall s v r, parse_value f s = Parsed v r ->
     (String.length r < String.length s)%nat)
  /\ (forall s vs r, parse_elements f s = Parsed vs r ->
        (String.length r < String.length s)%nat)
  /\ (forall s kvs r, parse_members f s = Parsed kvs r ->
        (String.length r < String.length s)%nat).
Proof.
  induction f as [|f (IHv & IHe & IHm)]; [repeat split; intros; discriminate|].
  assert (Hws : forall s c r, skip_ws s = String c r ->
             (S (String.length r) <= String.length s)%nat).
  { intros s c r E. pose proof (skip_ws_length s) as H. rewrite E in H.
    exact H. }
  repeat split.
  - intros s v r H. cbn [parse_value] in H.
    repeat break_match; simplify_eq;
      repeat match goal with
        | E : skip_ws _ = String _ _ |- _ => apply Hws in E
        | E : parse_value f _ = Parsed _ _ |- _ => apply IHv in E
        | E : parse_elements f _ = Parsed _ _ |- _ => apply IHe in E
        | E : parse_members f _ = Parsed _ _ |- _ => apply IHm in E
        | E : parse_chars _ = Parsed _ _ |- _ => apply parse_chars_length in E
        | E : parse_number _ = Parsed _ _ |- _ => apply parse_number_length in E
        | E : expect _ _ = Some _ |- _ => apply expect_length in E
        end;
      repeat match goal with
        | |- context [skip_ws ?x] => pose proof (skip_ws_length x); generalize dependent (skip_ws x); intros
        | H : context [skip_ws ?x] |- _ => pose proof (skip_ws_length x); generalize dependent (skip_ws x); intros
        end;
      simpl in *; lia.
  - intros s v r H. cbn [parse_elements] in H.
    repeat break_match; simplify_eq;
      repeat match goal with
        | E : skip_ws _ = String _ _ |- _ => apply Hws in E
        | E : parse_value f _ = Parsed _ _ |- _ => apply IHv in E
        | E : parse_elements f _ = Parsed _ _ |- _ => apply IHe in E
        end; simpl in *; lia.
  - intros s v r H. cbn [parse_members] in H.
    repeat break_match; simplify_eq;
      repeat match goal with
        | E : skip_ws _ = String _ _ |- _ => apply Hws in E
        | E : parse_value f _ = Parsed _ _ |- _ => apply IHv in E
        | E : parse_members f _ = Parsed _ _ |- _ => apply IHm in E
        | E : parse_chars _ = Parsed _ _ |- _ => apply parse_chars_length in E
        end; simpl in *; lia.
Qed.

Lemma parse_fuel_enough (f : nat) :
  (forall s, (2 * String.length s + 1 <= f)%nat -> parse_value f s <> Exhausted)
  /\ (forall s, (2 * String.length s + 2 <= f)%nat ->
        parse_elements f s <> Exhausted)
  /\ (forall s, (2 * String.length s + 2 <= f)%nat ->
        parse_members f s <> Exhausted).
Proof.
  induction f as [|f (IHv & IHe & IHm)]; [repeat split; intros; lia|].
  destruct (parse_consumes f) as (Cv & Ce & Cm).
  assert (Hws : forall s c r, skip_ws s = String c r ->
             (S (String.length r) <= String.length s)%nat).
  { intros s c r E. pose proof (skip_ws_length s) as H. rewrite E in H.
    exact H. }
  repeat split.
  - intros s Hf H. cbn [parse_value] in H.
    repeat break_match; simplify_eq;
      repeat match goal with
        | E : skip_ws _ = String _ _ |- _ => apply Hws in E
        | E : parse_chars _ = Exhausted |- _ =>
            exact (parse_chars_fuel_free _ E)
        | E : parse_number _ = Exhausted |- _ =>
            exact (parse_number_fuel_free _ E)
        | E : parse_members f _ = Exhausted |- _ =>
            apply IHm in E; [contradiction|simpl in *; lia]
        | E : parse_elements f _ = Exhausted |- _ =>
            apply IHe in E; [contradiction|simpl in *; lia]
        end.
  - intros s Hf H. cbn [parse_elements] in H.
    repeat break_match; simplify_eq;
      repeat match goal with
        | E : skip_ws _ = String _ _ |- _ => apply Hws in E
        | E : parse_value f _ = Parsed _ _ |- _ => apply Cv in E
        | E : parse_value f _ = Exhausted |- _ =>
            apply IHv in E; [contradiction|simpl in *; lia]
        | E : parse_elements f _ = Exhausted |- _ =>
            apply IHe in E; [contradiction|simpl in *; lia]
        end.
  - intros s Hf H. cbn [parse_members] in H.
    repeat break_match; simplify_eq;
      repeat match goal with
        | E : skip_ws _ = String _ _ |- _ => apply Hws in E
        | E : parse_chars _ = Parsed _ _ |- _ => apply parse_chars_length in E
        | E : parse_chars _ = Exhausted |- _ =>
            exact (parse_chars_fuel_free _ E)
        | E : parse_value f _ = Parsed _ _ |- _ => apply Cv in E
        | E : parse_value f _ = Exhausted |- _ =>
            apply IHv in E; [contradiction|simpl in *; lia]
        | E : parse_members f _ = Exhausted |- _ =>
            apply IHm in E; [contradiction|simpl in *; lia]
        end.
Qed.

(** [JSON_parse] never gives up for lack of fuel: its [None] is always the
    syntax error. *)
Lemma parse_document_total (s : string) : parse_document s <> Exhausted.
Proof.
  unfold parse_document, parse_fuel. intros H.
  destruct (parse_value _ s) as [v r| |] eqn:E.
  - destruct (is_empty (skip_ws r)); discriminate.
  - discriminate.
  - revert E. apply (parse_fuel_enough (2 * String.length s + 2)). lia.
Qed.

Lemma JSON_parse_None (s : string) :
  JSON_parse s = None -> parse_document s = Malformed.
Proof.
  unfold JSON_parse. pose proof (parse_document_total s) as T.
  destruct (parse_document s); [discriminate|reflexivity|contradiction].
Qed.

End JsonFacts.

(* ===================================================================== *)
(** * Facts about the text primitives and the decoder                     *)
(* ===================================================================== *)

Module StreamFacts.
Import Text Json Store Stream.

Lemma split_nl_line (a rest : string) :
  no_nl a = true ->
  split_nl (a +:+ String nl rest) = a :: split_nl rest.
Proof.
  induction a as [|c a IH]; simpl; intros H.
  - reflexivity.
  - apply andb_true_iff in H as [Hc Ha].
    apply negb_true_iff in Hc. rewrite Hc, (IH Ha). reflexivity.
Qed.

Lemma split_nl_last (a : string) :
  no_nl a = true -> split_nl a = [a].
Proof.
  induction a as [|c a IH]; simpl; intros H.
  - reflexivity.
  - apply andb_true_iff in H as [Hc Ha].
    apply negb_true_iff in Hc. rewrite Hc, (IH Ha). reflexivity.
Qed.

(** ** The byte decoder *)

Lemma append_cons (x : ascii) (a b : string) :
  String x a +:+ b = String x (a +:+ b).
Proof. reflexivity. Qed.

Lemma append_nil_l (b : string) : EmptyString +:+ b = b.
Proof. reflexivity. Qed.

Lemma append_nil_r (a : string) : a +:+ EmptyString = a.
Proof.
  induction a as [|x a IH]; [reflexivity|].
  rewrite append_cons, IH. reflexivity.
Qed.

Lemma append_assoc (a b c : string) : (a +:+ b) +:+ c = a +:+ (b +:+ c).
Proof.
  induction a as [|x a IH]; [reflexivity|].
  rewrite !append_cons, IH. reflexivity.
Qed.

Lemma continuation_bounds_high (p : string) (lo hi : nat) :
  continuation_bounds p = (lo, hi) -> (128 <= lo)%nat.
Proof.
  unfold continuation_bounds. intros H.
  destruct p as [|c [|]];
    repeat match type of H with
           | (if ?b then _ else _) = _ => destruct b
           end; simplify_eq; lia.
Qed.

Lemma newline_is_no_continuation (p : string) (lo hi : nat) :
  continuation_bounds p = (lo, hi) -> between lo hi (nat_of_ascii nl) = false.
Proof.
  intros H. apply continuation_bounds_high in H. unfold between.
  apply andb_false_iff. left. apply Nat.leb_gt.
  change (nat_of_ascii nl) with 10%nat. lia.
Qed.

(** After a newline no sequence is open, whatever was open before it. *)
Lemma utf8_scan_cut (a b p : string) (k : nat) :
  utf8_scan p k (a +:+ String nl b)
  = utf8_scan p k (a +:+ chr nl) +:+ utf8_scan EmptyString O b.
Proof.
  revert p k. induction a as [|c a IH]; intros p k.
  - unfold chr. rewrite !append_nil_l. cbn [utf8_scan]. destruct k as [|k].
    + reflexivity.
    + destruct (continuation_bounds p) as [lo hi] eqn:E.
      rewrite (newline_is_no_continuation p lo hi E). reflexivity.
  - rewrite !append_cons. cbn [utf8_scan]. destruct k as [|k].
    + destruct (idle_step c) as [[out p'] k']. rewrite IH, append_assoc. reflexivity.
    + destruct (continuation_bounds p) as [lo hi].
      destruct (between lo hi (nat_of_ascii c)).
      * destruct k; rewrite IH, ?append_assoc; reflexivity.
      * destruct (idle_step c) as [[out p'] k']. rewrite IH, !append_assoc. reflexivity.
Qed.

Lemma utf8_scan_ends_nl (a p : string) (k : nat) :
  exists w, utf8_scan p k (a +:+ chr nl) = w +:+ chr nl.
Proof.
  revert p k. induction a as [|c a IH]; intros p k.
  - unfold chr. rewrite !append_nil_l. cbn [utf8_scan]. destruct k as [|k].
    + exists EmptyString. reflexivity.
    + destruct (continuation_bounds p) as [lo hi] eqn:E.
      rewrite (newline_is_no_continuation p lo hi E). exists replacement. reflexivity.
  - rewrite !append_cons. cbn [utf8_scan]. destruct k as [|k].
    + destruct (idle_step c) as [[out p'] k']. destruct (IH p' k') as [w ->].
      exists (out +:+ w). by rewrite append_assoc.
    + destruct (continuation_bounds p) as [lo hi].
      destruct (between lo hi (nat_of_ascii c)).
      * destruct k.
        -- destruct (IH EmptyString O) as [w ->]. exists ((p +:+ chr c) +:+ w). rewrite !append_assoc. reflexivity.
        -- apply IH.
      * destruct (idle_step c) as [[out p'] k']. destruct (IH p' k') as [w ->].
        exists (replacement +:+ (out +:+ w)). by rewrite !append_assoc.
Qed.

Lemma startsWith_nil (s : string) : startsWith s EmptyString = true.
Proof. destruct s; reflexivity. Qed.

Lemma strip_after_nl (w y : string) :
  strip_byte_order_mark ((w +:+ chr nl) +:+ y)
  = strip_byte_order_mark (w +:+ chr nl) +:+ y.
Proof.
  unfold strip_byte_order_mark, byte_order_mark, chr.
  destruct w as [|c1 [|c2 [|c3 w]]];
    rewrite ?append_cons, ?append_nil_l; cbn [startsWith slice].
  - reflexivity.
  - rewrite !andb_false_r. reflexivity.
  - rewrite !andb_false_r. reflexivity.
  - rewrite !startsWith_nil. destruct (_ && _)%bool; reflexivity.
Qed.

Lemma ascii_eqb_nat (a b : ascii) :
  Ascii.eqb a b = Nat.eqb (nat_of_ascii a) (nat_of_ascii b).
Proof.
  destruct (Ascii.eqb_spec a b) as [->|Hn].
  - symmetry. apply Nat.eqb_refl.
  - symmetry. apply Nat.eqb_neq. intros E. apply Hn.
    rewrite <- (ascii_nat_embedding a), <- (ascii_nat_embedding b), E.
    reflexivity.
Qed.


Lemma replacement_is_no_mark (x : string) :
  startsWith (replacement +:+ x) byte_order_mark = false.
Proof. reflexivity. Qed.

Lemma other_lead_is_no_mark (c : ascii) (x : string) :
  nat_of_ascii c <> 239%nat -> startsWith (String c x) byte_order_mark = false.
Proof.
  intros H. unfold byte_order_mark. cbn [startsWith].
  rewrite ascii_eqb_nat. apply Nat.eqb_neq in H.
  rewrite Nat.eqb_sym in H. change (nat_of_ascii "239") with 239%nat.
  rewrite H. reflexivity.
Qed.

(** A sequence opened by another lead than [EF] never writes the mark. *)
Lemma open_sequence_is_no_mark (c : ascii) (s p : string) (k : nat) :
  nat_of_ascii c <> 239%nat ->
  startsWith (utf8_scan (String c p) (Datatypes.S k) s) byte_order_mark = false.
Proof.
  intros H. revert p k. induction s as [|d s IH]; intros p k.
  - reflexivity.
  - cbn [utf8_scan]. destruct (continuation_bounds (String c p)) as [lo hi].
    destruct (between lo hi (nat_of_ascii d)).
    + destruct k as [|k].
      * rewrite !append_cons. apply other_lead_is_no_mark, H.
      * rewrite append_cons. apply IH.
    + destruct (idle_step d) as [[out p'] k']. apply replacement_is_no_mark.
Qed.

Lemma continuation_in_range (c : ascii) :
  between 128 191 (nat_of_ascii c) = false ->
  Ascii.eqb "187" c = false /\ Ascii.eqb "191" c = false.
Proof.
  unfold between. rewrite !ascii_eqb_nat.
  change (nat_of_ascii "187") with 187%nat.
  change (nat_of_ascii "191") with 191%nat.
  rewrite andb_false_iff, !Nat.leb_gt, !Nat.eqb_neq. lia.
Qed.

(** The decoded text starts with U+FEFF exactly when the bytes start with
    its three bytes. *)
Lemma decoded_mark (b : string) :
  startsWith (utf8_scan EmptyString O b) byte_order_mark
  = startsWith b byte_order_mark.
Proof.
  destruct b as [|c1 b]; [reflexivity|].
  destruct (Nat.eq_dec (nat_of_ascii c1) 239%nat) as [E|N].
  - assert (c1 = "239"%char) as ->
      by (rewrite <- (ascii_nat_embedding c1), E; reflexivity).
    destruct b as [|c2 b]; [reflexivity|].
    cbn [utf8_scan].
    change (idle_step "239") with (EmptyString, chr "239", 2%nat).
    cbv iota beta. rewrite append_nil_l. cbn [utf8_scan].
    change (continuation_bounds (chr "239")) with (128, 191)%nat.
    cbv iota beta.
    destruct (between 128 191 (nat_of_ascii c2)) eqn:R2.
    + destruct b as [|c3 b].
      * cbn [utf8_scan]. unfold byte_order_mark. cbn [startsWith].
        rewrite !andb_false_r. reflexivity.
      * cbn [utf8_scan].
        change (continuation_bounds (chr "239" +:+ chr c2)) with (128, 191)%nat.
        cbv iota beta.
        destruct (between 128 191 (nat_of_ascii c3)) eqn:R3.
        -- unfold chr, byte_order_mark.
           repeat first [rewrite append_cons | rewrite append_nil_l].
           cbn [startsWith]. rewrite !startsWith_nil. reflexivity.
        -- destruct (continuation_in_range c3 R3) as [_ H3].
           destruct (idle_step c3) as [[out p'] k'].
           rewrite replacement_is_no_mark.
           unfold byte_order_mark. cbn [startsWith].
           rewrite H3, !andb_false_r. reflexivity.
    + destruct (continuation_in_range c2 R2) as [H2 _].
      destruct (idle_step c2) as [[out p'] k'].
      rewrite replacement_is_no_mark.
      unfold byte_order_mark. cbn [startsWith].
      rewrite H2, !andb_false_r. reflexivity.
  - rewrite (other_lead_is_no_mark c1 b N).
    cbn [utf8_scan]. unfold idle_step.
    destruct (nat_of_ascii c1 <? 128)%nat.
    + unfold chr. rewrite append_cons. apply other_lead_is_no_mark, N.
    + destruct (lead_needs (nat_of_ascii c1)) as [|k].
      * apply replacement_is_no_mark.
      * rewrite append_nil_l. apply open_sequence_is_no_mark, N.
Qed.

(** Cutting the bytes right after a newline: the two pieces decode to the
    two halves of the text, unless the second piece begins with the mark,
    which a fresh decoder drops. *)
Lemma decode_cut (a b : string) :
  startsWith b byte_order_mark = false ->
  decode (a +:+ String nl b) = decode (a +:+ chr nl) +:+ decode b.
Proof.
  intros H. rewrite <- decoded_mark in H.
  unfold decode at 1 2. rewrite utf8_scan_cut.
  destruct (utf8_scan_ends_nl a EmptyString O) as [w ->].
  rewrite strip_after_nl. f_equal.
  unfold decode, strip_byte_order_mark. rewrite H. reflexivity.
Qed.

Lemma decode_ends_nl (a : string) :
  exists w, decode (a +:+ chr nl) = w +:+ chr nl.
Proof.
  unfold decode. destruct (utf8_scan_ends_nl a EmptyString O) as [w ->].
  unfold strip_byte_order_mark, byte_order_mark, chr.
  destruct w as [|c1 [|c2 [|c3 w]]];
    rewrite ?append_cons, ?append_nil_l; cbn [startsWith slice].
  - exists EmptyString. reflexivity.
  - rewrite !andb_false_r. exists (String c1 EmptyString). reflexivity.
  - rewrite !andb_false_r. exists (String c1 (String c2 EmptyString)).
    reflexivity.
  - destruct (_ && _)%bool.
    + exists w. reflexivity.
    + exists (String c1 (String c2 (String c3 w))). reflexivity.
Qed.

Section Replay.
Context {S : Type}.
Variables onChunk onDone onError : jsval -> S -> S.

Local Abbreviation line := (on_line onChunk onDone onError).
Local Abbreviation play := (replay onChunk onDone onError).

(** A line acts on the state only through the callbacks it triggers. *)
Lemma on_line_replay (s : S) (l : string) :
  line s l = fold_left play (line_calls l) s.
Proof.
  unfold line_calls, on_line.
  destruct (startsWith l "data: "); [|reflexivity].
  destruct (JSON_parse (slice 6 l)) as [d|]; [|reflexivity].
  destruct (is_nullish d); [reflexivity|].
  destruct (truthy (get_prop d "content")),
           (truthy (get_prop d "done")),
           (truthy (get_prop d "error")); reflexivity.
Qed.

Lemma log_line_app (acc : list Callback) (l : string) :
  on_line log_chunk log_done log_error acc l = acc ++ line_calls l.
Proof.
  unfold line_calls, on_line, log_chunk, log_done, log_error.
  destruct (startsWith l "data: "); [|by rewrite app_nil_r].
  destruct (JSON_parse (slice 6 l)) as [d|]; [|by rewrite app_nil_r].
  destruct (is_nullish d); [by rewrite app_nil_r|].
  destruct (truthy (get_prop d "content")),
           (truthy (get_prop d "done")),
           (truthy (get_prop d "error"));
    simpl; rewrite <- ?app_assoc, ?app_nil_r; reflexivity.
Qed.

Lemma log_lines_app (ls : list string) (acc : list Callback) :
  fold_left (on_line log_chunk log_done log_error) ls acc
  = acc ++ concat (map line_calls ls).
Proof.
  revert acc. induction ls as [|l ls IH]; intros acc; simpl.
  - by rewrite app_nil_r.
  - rewrite IH, log_line_app, <- app_assoc. reflexivity.
Qed.

Lemma on_lines_replay (ls : list string) (s : S) :
  fold_left line ls s = fold_left play (concat (map line_calls ls)) s.
Proof.
  revert s. induction ls as [|l ls IH]; intros s; simpl.
  - reflexivity.
  - rewrite fold_left_app, <- on_line_replay. apply IH.
Qed.

End Replay.

(** A line without the prefix, or whose payload does not parse, calls
    nothing. *)
Lemma line_calls_dropped (l : string) :
  (startsWith l "data: " = true -> JSON_parse (slice 6 l) = None) ->
  line_calls l = [].
Proof.
  intros H. unfold line_calls, on_line.
  destruct (startsWith l "data: "); [|reflexivity].
  rewrite (H eq_refl). reflexivity.
Qed.

(** The calls of one chunk are those of its lines, one after the other. *)
Lemma chunk_calls (acc : list Callback) (value : string) :
  on_chunk log_chunk log_done log_error acc value
  = acc ++ concat (map line_calls (split_nl (decode value))).
Proof. unfold on_chunk. apply log_lines_app. Qed.

Lemma log_read_loop (source : list Read) (acc : list Callback) :
  read_loop log_chunk log_done log_error source acc
  = acc ++ read_loop log_chunk log_done log_error source [].
Proof.
  revert acc. induction source as [|[v|msg] rest IH]; intros acc; simpl.
  - by rewrite app_nil_r.
  - rewrite IH, (IH (on_chunk _ _ _ [] v)), !chunk_calls, app_assoc.
    reflexivity.
  - reflexivity.
Qed.

(** [streamChat] acts on the state only through the calls it makes. *)
Lemma streamChat_replay (nts : JNumber -> string) {S : Type}
    (onChunk onDone onError : jsval -> S -> S)
    (outcome : FetchOutcome) (s : S) :
  streamChat nts onChunk onDone onError outcome s
  = fold_left (replay onChunk onDone onError) (stream_calls nts outcome) s.
Proof.
  unfold stream_calls.
  destruct outcome as [msg|[e|msg]|source]; cbn [streamChat];
    try reflexivity.
  - destruct (is_nullish e); reflexivity.
  - revert s. induction source as [|[v|msg] rest IH]; intros s; simpl.
    + reflexivity.
    + rewrite log_read_loop, fold_left_app, IH. f_equal.
      rewrite chunk_calls. unfold on_chunk. apply on_lines_replay.
    + reflexivity.
Qed.

End StreamFacts.

(* ===================================================================== *)
(** * Facts about the dispatcher and the refresh coordinator              *)
(* ===================================================================== *)

Module ApiFacts.
Import Text Json Store Api.

Lemma count_app (p : Event -> bool) (l1 l2 : list Event) :
  count p (l1 ++ l2) = (count p l1 + count p l2)%nat.
Proof. induction l1 as [|e l1 IH]; simpl; [reflexivity|]. rewrite IH. lia. Qed.

Lemma cred_view_set (a r : string) (store : gmap string string) :
  cred_view (setItem "refresh_token" r (setItem "access_token" a store))
  = (Some a, Some r).
Proof.
  unfold cred_view, getItem, setItem. f_equal.
  - rewrite lookup_insert_ne by discriminate. apply lookup_insert_eq.
  - apply lookup_insert_eq.
Qed.

Lemma cred_view_cleared (store : gmap string string) :
  cred_view (removeItem "refresh_token" (removeItem "access_token" store))
  = (None, None).
Proof.
  unfold cred_view, getItem, removeItem. f_equal.
  - rewrite lookup_delete_ne by discriminate. apply lookup_delete_eq.
  - apply lookup_delete_eq.
Qed.

Section WithPlatform.
Variable nts : JNumber -> string.

Local Abbreviation resume := (Api.resume nts).
Local Abbreviation run := (Api.run nts).
Local Abbreviation call := (Api.call nts).

Lemma request_interceptor_retry (store : gmap string string) (c : Config) :
  _retry (request_interceptor store c) = _retry c.
Proof.
  unfold request_interceptor.
  destruct (getItem "access_token" store) as [t|]; [|reflexivity].
  destruct (is_empty t); reflexivity.
Qed.

(** Tactic for the case analysis every step lemma needs. *)
Ltac step_cases :=
  repeat match goal with
    | |- context [match ?r with Answer _ _ => _ | NoAnswer => _ end] => destruct r
    | |- context [if ok_status ?n then _ else _] => destruct (ok_status n)
    | |- context [if is_nullish ?b then _ else _] => destruct (is_nullish b)
    | |- context [bool_decide ?P] => destruct (bool_decide P)
    | |- context [match getItem ?k ?s with _ => _ end] => destruct (getItem k s)
    | |- context [if is_empty ?t then _ else _] => destruct (is_empty t)
    | |- context [_retry (request_interceptor ?s ?c)] =>
        rewrite (request_interceptor_retry s c)
    | |- context [_retry (set_header ?k ?v ?c)] =>
        change (_retry (set_header k v c)) with (_retry c)
    | |- context [_retry (set_retry ?c)] =>
        change (_retry (set_retry c)) with true
    | |- context [if _retry ?c then _ else _] => destruct (_retry c) eqn:?
    | _ => progress (cbn [fst snd negb andb count is_refresh is_send
                          refresh_budget send_budget steps_left set_retry
                          set_header _retry Nat.add is_settled])
    end.

Lemma resume_refresh_budget ph reply store :
  (count is_refresh (resume ph reply store).2
   + refresh_budget (resume ph reply store).1.1 <= refresh_budget ph)%nat.
Proof.
  destruct ph as [c|c st|r]; cbn [Api.resume];
    unfold on_response, on_refresh, response_error, refresh_failed, api;
    step_cases; try lia; try congruence.
Qed.

Lemma resume_send_budget ph reply store :
  (count is_send (resume ph reply store).2
   + send_budget (resume ph reply store).1.1 <= send_budget ph)%nat.
Proof.
  destruct ph as [c|c st|r]; cbn [Api.resume];
    unfold on_response, on_refresh, response_error, refresh_failed, api;
    step_cases; try lia; try congruence.
Qed.

Lemma resume_steps_left ph reply store :
  (steps_left (resume ph reply store).1.1 <= pred (steps_left ph))%nat.
Proof.
  destruct ph as [c|c st|r]; cbn [Api.resume];
    unfold on_response, on_refresh, response_error, refresh_failed, api;
    step_cases; try lia; try congruence.
Qed.

Lemma run_refresh_budget replies ph store :
  (count is_refresh (run ph store replies).2 <= refresh_budget ph)%nat.
Proof.
  revert ph store. induction replies as [|r rs IH]; intros ph store; simpl.
  - lia.
  - pose proof (resume_refresh_budget ph r store) as H.
    destruct (resume ph r store) as [[ph1 st1] ev1]. simpl in H.
    specialize (IH ph1 st1).
    destruct (run ph1 st1 rs) as [[ph2 st2] ev2]. simpl in *.
    rewrite count_app. lia.
Qed.

Lemma run_send_budget replies ph store :
  (count is_send (run ph store replies).2 <= send_budget ph)%nat.
Proof.
  revert ph store. induction replies as [|r rs IH]; intros ph store; simpl.
  - lia.
  - pose proof (resume_send_budget ph r store) as H.
    destruct (resume ph r store) as [[ph1 st1] ev1]. simpl in H.
    specialize (IH ph1 st1).
    destruct (run ph1 st1 rs) as [[ph2 st2] ev2]. simpl in *.
    rewrite count_app. lia.
Qed.

Lemma run_steps_left replies ph store :
  (steps_left (run ph store replies).1.1 <= steps_left ph - length replies)%nat.
Proof.
  revert ph store. induction replies as [|r rs IH]; intros ph store; simpl.
  - lia.
  - pose proof (resume_steps_left ph r store) as H.
    destruct (resume ph r store) as [[ph1 st1] ev1]. simpl in H.
    specialize (IH ph1 st1).
    destruct (run ph1 st1 rs) as [[ph2 st2] ev2]. simpl in *. lia.
Qed.

Lemma steps_left_settled ph : steps_left ph = O -> is_settled ph = true.
Proof. destruct ph as [c|c st|r]; simpl; [destruct (_retry c)..|]; congruence. Qed.

End WithPlatform.
End ApiFacts.

(* ===================================================================== *)
(** * The stream decoder                                                  *)
(* ===================================================================== *)

Module Decoder.
Import Text Json Store Stream StreamFacts Samples.

(** A line that carries a payload with truthy [content] and nothing else
    triggers exactly one [onChunk]. *)
Lemma content_frame_calls (payload : string) (d : jsval) :
  JSON_parse payload = Some d ->
  is_nullish d = false ->
  truthy (get_prop d "content") = true ->
  truthy (get_prop d "done") = false ->
  truthy (get_prop d "error") = false ->
  line_calls ("data: " +:+ payload) = [CChunk (get_prop d "content")].
Proof.
  intros Hp Hn Hc Hd He. unfold line_calls, on_line.
  change (startsWith ("data: " +:+ payload) "data: ")
    with (startsWith payload EmptyString).
  change (slice 6 ("data: " +:+ payload)) with payload.
  destruct payload; cbn [startsWith]; rewrite Hp, Hn, Hc, Hd, He; reflexivity.
Qed.

(** C1.  The spec asks that an event split across two reads come out as
    exactly one content frame.  [streamChat] parses every read on its own:
    on the reads [split_first] and [split_second] the first piece carries
    the prefix but is not JSON and the second piece has no prefix, so no
    callback is made at all; the same bytes in one read give the one
    frame. *)
Theorem split_event_is_lost (nts : JNumber -> string) :
  stream_calls nts (FetchOk [Chunk split_first; Chunk split_second]) = []
  /\ parse_document (slice 6 split_first) = Malformed
  /\ startsWith split_second "data: " = false
  /\ stream_calls nts (FetchOk [Chunk (split_first +:+ split_second)])
     = [CChunk (JStr "hi")].
Proof. repeat split; vm_compute; reflexivity. Qed.

(** C7.  The spec asks that, for every stream input with one unparseable
    line between two valid content frames, both frames be delivered in
    order.  The input here has the content line A, the line [bad_line]
    whose payload is not JSON, and the content line hi; each valid line on
    its own calls [onChunk] once and the bad line calls nothing.  Read in
    one piece the stream delivers A and hi.  When the transport cuts the
    last line in two, [streamChat] parses each read on its own and hi is
    never delivered: only A is. *)
Theorem cut_frame_after_bad_line_is_lost (nts : JNumber -> string) :
  let head := content_line "A" +:+ eol +:+ bad_line +:+ eol in
  line_calls (content_line "A") = [CChunk (JStr "A")]
  /\ startsWith bad_line "data: " = true
  /\ parse_document (slice 6 bad_line) = Malformed
  /\ line_calls bad_line = []
  /\ line_calls (content_line "hi") = [CChunk (JStr "hi")]
  /\ split_first +:+ split_second = content_line "hi" +:+ eol
  /\ stream_calls nts (FetchOk [Chunk (head +:+ split_first +:+ split_second)])
     = [CChunk (JStr "A"); CChunk (JStr "hi")]
  /\ stream_calls nts (FetchOk [Chunk (head +:+ split_first);
                                Chunk split_second])
     = [CChunk (JStr "A")].
Proof. repeat split; vm_compute; reflexivity. Qed.

End Decoder.

(* ===================================================================== *)
(** * The chat session controller                                         *)
(* ===================================================================== *)

Module Controller.
Import Text Json Store Stream Chat StreamFacts Samples.

Lemma update_last_snoc (f : Message -> Message) (ms : list Message) (m : Message) :
  update_last f (ms ++ [m])
  = Some (ms ++ [if String.eqb (role m) "assistant" then f m else m]).
Proof.
  unfold update_last. rewrite last_snoc.
  destruct (String.eqb (role m) "assistant"); [|reflexivity].
  rewrite length_app. simpl.
  replace (pred (length ms + 1)) with (length ms + 0)%nat by lia.
  rewrite insert_app_r. reflexivity.
Qed.

Lemma update_last_assistant (f : Message -> Message) (ms : list Message) (m : Message) :
  role m = "assistant" -> update_last f (ms ++ [m]) = Some (ms ++ [f m]).
Proof. intros H. rewrite update_last_snoc, H. reflexivity. Qed.

Lemma handleSendMessage_busy (snap : ChatState) text clk store (s : Session) :
  (isLoading snap || isStreaming snap)%bool = true ->
  handleSendMessage snap text clk store s = (s, None).
Proof. intros H. unfold handleSendMessage. rewrite H. reflexivity. Qed.

Section WithPlatform.
Variable nts : JNumber -> string.

Local Abbreviation ToString := (Json.ToString nts).
Local Abbreviation onChunk := (Chat.onChunk nts).
Local Abbreviation onError := (Chat.onError nts).
Local Abbreviation stream_turn := (Chat.stream_turn nts).

Lemma onChunk_flags (c : jsval) (s : Session) :
  isLoading (ui (onChunk c s)) = isLoading (ui s)
  /\ isStreaming (ui (onChunk c s)) = isStreaming (ui s).
Proof.
  unfold Chat.onChunk, on_ui, with_messages. simpl.
  destruct (update_last _ (messages (ui s))); split; reflexivity.
Qed.

Lemma onChunks_flags (cs : list jsval) (s : Session) :
  isLoading (ui (fold_left (fun s c => onChunk c s) cs s)) = isLoading (ui s)
  /\ isStreaming (ui (fold_left (fun s c => onChunk c s) cs s))
     = isStreaming (ui s).
Proof.
  revert s. induction cs as [|c cs IH]; intros s; simpl; [split; reflexivity|].
  destruct (IH (onChunk c s)) as [-> ->]. apply onChunk_flags.
Qed.

Lemma onChunk_messages (c : jsval) (s : Session) (ms : list Message) (m : Message) :
  messages (ui s) = ms ++ [m] -> role m = "assistant" ->
  messages (ui (onChunk c s))
  = ms ++ [set_content (content m +:+ ToString c) m].
Proof.
  intros Hm Hr. unfold Chat.onChunk, on_ui, with_messages. simpl.
  rewrite Hm, update_last_assistant by assumption. reflexivity.
Qed.

Lemma onError_messages (e : jsval) (s : Session) (ms : list Message) (m : Message) :
  messages (ui s) = ms ++ [m] -> role m = "assistant" ->
  messages (ui (onError e s))
  = ms ++ [set_content ("Error: " +:+ ToString e) m].
Proof.
  intros Hm Hr. unfold Chat.onError, on_ui, with_messages, with_flags. simpl.
  rewrite Hm, update_last_assistant by assumption. reflexivity.
Qed.

Lemma onDone_messages (snap : ChatState) (v : jsval) (s : Session) :
  messages (ui (onDone snap v s)) = messages (ui s).
Proof. unfold onDone. destruct (currentConversation snap); reflexivity. Qed.

Lemma on_line_chat (snap : ChatState) (s : Session) (l : string) :
  on_line onChunk (onDone snap) onError s l
  = fold_left (replay onChunk (onDone snap) onError) (line_calls l) s.
Proof. apply on_line_replay. Qed.

Lemma abd_calls :
  stream_calls nts (FetchOk [Chunk abd_input])
  = [CChunk (JStr "A"); CChunk (JStr "B"); CDone (JInt 7)]
  /\ stream_calls nts (FetchOk abd_by_line)
     = [CChunk (JStr "A"); CChunk (JStr "B"); CDone (JInt 7)].
Proof. split; vm_compute; reflexivity. Qed.

(** C6.  An idle session with no conversation takes a turn and reads the
    stream content A, content B, done with identifier 7 (in one read or one
    line per read): the message list ends with the user message and the
    assistant message whose content is AB, both flags are down again, and
    once the reload of the conversation list has settled, either way, the
    current conversation is the one with identifier 7. *)
Theorem abd_stream_gives_AB_and_7 (convs : jsval) (ms : list Message)
    (model text : string) (clk : Clock) (store : gmap string string)
    (reload : option jsval) :
  let s0 := idle convs ms model in
  let s1 := (handleSendMessage (ui s0) text clk store s0).1 in
  let turn source :=
    loadConversations_settled reload
      (stream_turn (ui s0) (FetchOk source) s1) in
  let expected :=
    ms ++ [mkMessage (user_now clk) "user" text None (user_iso clk);
           mkMessage (assistant_now clk + 1) "assistant" "AB" (Some model)
             (assistant_iso clk)] in
  (messages (ui (turn [Chunk abd_input])) = expected
   /\ currentConversation (ui (turn [Chunk abd_input]))
      = Some (JObj [("id", JInt 7)])
   /\ isLoading (ui (turn [Chunk abd_input])) = false
   /\ isStreaming (ui (turn [Chunk abd_input])) = false)
  /\ (messages (ui (turn abd_by_line)) = expected
      /\ currentConversation (ui (turn abd_by_line))
         = Some (JObj [("id", JInt 7)])
      /\ isLoading (ui (turn abd_by_line)) = false
      /\ isStreaming (ui (turn abd_by_line)) = false).
Proof.
  intros s0 s1 turn expected.
  destruct abd_calls as [E1 E2].
  assert (H : forall source,
             stream_calls nts (FetchOk source)
             = [CChunk (JStr "A"); CChunk (JStr "B"); CDone (JInt 7)] ->
             messages (ui (turn source)) = expected
             /\ currentConversation (ui (turn source))
                = Some (JObj [("id", JInt 7)])
             /\ isLoading (ui (turn source)) = false
             /\ isStreaming (ui (turn source)) = false).
  { intros source E. unfold turn, Chat.stream_turn.
    rewrite streamChat_replay, E. cbn [fold_left replay].
    unfold s1, s0, idle, handleSendMessage. cbn.
    unfold Chat.onChunk, on_ui, with_messages. cbn.
    rewrite update_last_snoc. cbn.
    rewrite update_last_snoc. cbn.
    unfold expected.
    destruct reload; cbn; rewrite <- app_assoc; repeat split; reflexivity. }
  split; apply H; assumption.
Qed.

Lemma settled_flags (snap : ChatState) (v e : jsval) (s : Session) :
  (isLoading (ui (onDone snap v s)) = false
   /\ isStreaming (ui (onDone snap v s)) = false)
  /\ (isLoading (ui (onError e s)) = false
      /\ isStreaming (ui (onError e s)) = false).
Proof.
  split.
  - unfold onDone. destruct (currentConversation snap); split; reflexivity.
  - unfold Chat.onError, on_ui, with_messages. cbn.
    destruct (update_last _ _); split; reflexivity.
Qed.

(** The read loop takes the reads one after the other: the later reads
    start from the state the earlier ones left. *)
Lemma stream_turn_app (snap : ChatState) (before after : list string)
    (s : Session) :
  stream_turn snap (FetchOk (map Chunk (before ++ after))) s
  = stream_turn snap (FetchOk (map Chunk after))
      (stream_turn snap (FetchOk (map Chunk before)) s).
Proof.
  unfold Chat.stream_turn. cbn [streamChat]. revert s.
  induction before as [|value before IH]; intros s; cbn [app map read_loop].
  - reflexivity.
  - apply IH.
Qed.

(** C5, as the code has it.  A done frame or an error frame lowers both
    flags, and that is all settling does: the reads that follow in the
    same stream are processed from the state those frames left, and the
    callbacks do not look at the flags.  After a done frame or an error
    frame, a later content frame still appends its fragment to the last
    message when that is the assistant's (after an error frame, to the
    error text); a later frame that carries only done leaves the message
    list as it is. *)
Theorem late_frames_still_apply (snap : ChatState) (s : Session)
    (ms : list Message) (m : Message) (v e c v' : jsval) (l l' : string)
    (before after : list string) :
  messages (ui s) = ms ++ [m] ->
  role m = "assistant" ->
  line_calls l = [CChunk c] ->
  line_calls l' = [CDone v'] ->
  let line := on_line onChunk (onDone snap) onError in
  let reads values := stream_turn snap (FetchOk (map Chunk values)) in
  messages (ui (line (onDone snap v s) l))
  = ms ++ [set_content (content m +:+ ToString c) m]
  /\ messages (ui (line (onError e s) l))
     = ms ++ [set_content (("Error: " +:+ ToString e) +:+ ToString c) m]
  /\ messages (ui (line (onDone snap v s) l')) = messages (ui s)
  /\ messages (ui (line (onError e s) l')) = messages (ui (onError e s))
  /\ (isLoading (ui (onDone snap v s)) = false
      /\ isStreaming (ui (onDone snap v s)) = false)
  /\ (isLoading (ui (onError e s)) = false
      /\ isStreaming (ui (onError e s)) = false)
  /\ reads (before ++ after) s = reads after (reads before s).
Proof.
  intros Hm Hr Hl Hl' line reads. unfold line, reads.
  rewrite !on_line_chat, Hl, Hl'. cbn [fold_left replay].
  pose proof (onError_messages e s ms m Hm Hr) as He.
  destruct (settled_flags snap v e s) as [Fd Fe].
  split; [|split; [|split; [|split; [|split; [|split]]]]].
  - apply onChunk_messages; [|assumption].
    rewrite onDone_messages. assumption.
  - rewrite (onChunk_messages c _ ms (set_content ("Error: " +:+ ToString e) m) He)
      by (destruct m; assumption).
    destruct m; reflexivity.
  - rewrite !onDone_messages. reflexivity.
  - rewrite onDone_messages. reflexivity.
  - exact Fd.
  - exact Fe.
  - apply stream_turn_app.
Qed.

(** C9.  A submission is accepted only from a render in which neither flag
    is up.  Accepting raises both flags and opens the stream; from then on,
    through any number of content frames, a further submission changes
    nothing and opens nothing; once [onDone] or [onError] has run, the next
    submission is accepted again: it appends a user message and an empty
    assistant message and opens a stream. *)
Theorem one_turn_at_a_time (s0 : Session) (text text' : string)
    (clk clk' : Clock) (store store' : gmap string string)
    (chunks : list jsval) (snap : ChatState) (v e : jsval) :
  isLoading (ui s0) = false ->
  isStreaming (ui s0) = false ->
  let started := handleSendMessage (ui s0) text clk store s0 in
  let streaming := fold_left (fun s c => onChunk c s) chunks started.1 in
  let again (s : Session) := handleSendMessage (ui s) text' clk' store' s in
  is_Some started.2
  /\ length (messages (ui started.1)) = (length (messages (ui s0)) + 2)%nat
  /\ again started.1 = (started.1, None)
  /\ again streaming = (streaming, None)
  /\ (is_Some (again (onDone snap v streaming)).2
      /\ length (messages (ui (again (onDone snap v streaming)).1))
         = (length (messages (ui (onDone snap v streaming))) + 2)%nat)
  /\ (is_Some (again (onError e streaming)).2
      /\ length (messages (ui (again (onError e streaming)).1))
         = (length (messages (ui (onError e streaming))) + 2)%nat).
Proof.
  intros HL HS started streaming again.
  assert (Hstart : isLoading (ui started.1) = true
                   /\ isStreaming (ui started.1) = true).
  { unfold started, handleSendMessage. rewrite HL, HS. cbn. split; reflexivity. }
  destruct Hstart as [HL1 HS1].
  destruct (onChunks_flags chunks started.1) as [HL2 HS2].
  fold streaming in HL2, HS2. rewrite HL1 in HL2. rewrite HS1 in HS2.
  assert (Hidle : forall s : Session,
             isLoading (ui s) = false -> isStreaming (ui s) = false ->
             is_Some (again s).2
             /\ length (messages (ui (again s).1))
                = (length (messages (ui s)) + 2)%nat).
  { intros s Hl Hs. unfold again, handleSendMessage. rewrite Hl, Hs. cbn.
    split; [eexists; reflexivity|]. rewrite !length_app. cbn. lia. }
  repeat split.
  - unfold started, handleSendMessage. rewrite HL, HS. cbn. eexists; reflexivity.
  - unfold started, handleSendMessage. rewrite HL, HS. cbn.
    rewrite !length_app. cbn. lia.
  - apply handleSendMessage_busy. rewrite HL1. reflexivity.
  - apply handleSendMessage_busy. rewrite HL2. reflexivity.
  - apply Hidle; unfold onDone; destruct (currentConversation snap); reflexivity.
  - apply Hidle; unfold onDone; destruct (currentConversation snap); reflexivity.
  - apply Hidle; unfold Chat.onError, on_ui, with_messages; cbn;
      destruct (update_last _ _); reflexivity.
  - apply Hidle; unfold Chat.onError, on_ui, with_messages; cbn;
      destruct (update_last _ _); reflexivity.
Qed.

End WithPlatform.

(** C5, as stated, fails: with one turn in flight, the stream that
    delivers a done frame and then a content frame leaves a message list
    different from the one the turn had when the done frame settled it. *)
Lemma content_after_done_is_appended :
  let settled :=
    stream_turn print_integer (ui fresh_session)
      (FetchOk [Chunk (done_line_7 +:+ eol)]) in_flight in
  let finished :=
    stream_turn print_integer (ui fresh_session)
      (FetchOk [Chunk (done_line_7 +:+ eol);
                Chunk (content_line "late" +:+ eol)]) in_flight in
  isLoading (ui settled) = false
  /\ isStreaming (ui settled) = false
  /\ content <$> last (messages (ui settled)) = Some EmptyString
  /\ content <$> last (messages (ui finished)) = Some "late"
  /\ messages (ui finished) <> messages (ui settled).
Proof.
  vm_compute. repeat split; discriminate.
Qed.

(** The same after an error frame: the late fragment lands behind the
    error text. *)
Example content_after_error :
  content <$>
    last (messages (ui (stream_turn print_integer (ui fresh_session)
                          (FetchOk [Chunk (error_line "boom" +:+ eol);
                                    Chunk (content_line "late" +:+ eol)])
                          in_flight)))
  = Some "Error: boomlate".
Proof. vm_compute. reflexivity. Qed.

Lemma late_frames_still_apply_witness :
  messages
    (ui (on_line (onChunk print_integer) (onDone (ui fresh_session))
           (onError print_integer)
           (onDone (ui fresh_session) (JInt 7) in_flight)
           (content_line "late")))
  = [mkMessage 1000 "user" "hello" None "t0";
     set_content (EmptyString +:+ ToString print_integer (JStr "late"))
       (mkMessage 1001 "assistant" EmptyString (Some "llama") "t0")].
Proof.
  refine (proj1 (late_frames_still_apply print_integer (ui fresh_session)
            in_flight [mkMessage 1000 "user" "hello" None "t0"]
            (mkMessage 1001 "assistant" EmptyString (Some "llama") "t0")
            (JInt 7) (JStr "boom") (JStr "late") (JInt 7)
            (content_line "late") done_line_7 [] [] _ _ _ _)).
  - vm_compute; reflexivity.
  - reflexivity.
  - vm_compute; reflexivity.
  - vm_compute; reflexivity.
Defined.

Lemma one_turn_at_a_time_witness :
  handleSendMessage (ui in_flight) "again" sample_clock access_only in_flight
  = (in_flight, None).
Proof.
  refine (proj1 (proj2 (proj2 (one_turn_at_a_time print_integer fresh_session
            "hello" "again" sample_clock sample_clock access_only access_only
            [] (ui fresh_session) (JInt 7) (JStr "boom") _ _)))).
  - reflexivity.
  - reflexivity.
Defined.

End Controller.

(* ===================================================================== *)
(** * The request dispatcher                                              *)
(* ===================================================================== *)

Module Dispatcher.
Import Text Json Store Api Stream Samples.

(** The request interceptor attaches the header exactly when the store
    holds a token that is not empty. *)
Lemma request_interceptor_present (store : gmap string string) (cfg : Config)
    (token : string) :
  getItem "access_token" store = Some token -> is_empty token = false ->
  headers (request_interceptor store cfg)
  = <["Authorization" := "Bearer " +:+ token]> (headers cfg).
Proof.
  intros H E. unfold request_interceptor. rewrite H, E. reflexivity.
Qed.

Lemma request_interceptor_absent (store : gmap string string) (cfg : Config) :
  present (getItem "access_token" store) = false ->
  request_interceptor store cfg = cfg.
Proof.
  unfold request_interceptor, present.
  destruct (getItem "access_token" store) as [t|]; [|reflexivity].
  destruct (is_empty t); [reflexivity|discriminate].
Qed.

(** C4.  The spec asks that a request carry no Authorization header when
    the store holds no access credential.  The interceptor of [api] does
    that; [streamChat] builds its own headers and always writes one: with
    an empty store the streaming request goes out with the header
    [Bearer null]. *)
Theorem streamChat_sends_bearer_null (data : ChatData) (cfg : Config)
    (store : gmap string string) :
  getItem "access_token" (∅ : gmap string string) = None
  /\ fetch_headers (streamChat_request ∅ data) !! "Authorization"
     = Some "Bearer null"
  /\ is_Some (fetch_headers (streamChat_request store data) !! "Authorization")
  /\ request_interceptor ∅ cfg = cfg.
Proof.
  repeat split. unfold streamChat_request. cbn [fetch_headers].
  rewrite lookup_insert_eq. eexists; reflexivity.
Qed.

End Dispatcher.

(* ===================================================================== *)
(** * The refresh coordinator                                             *)
(* ===================================================================== *)

Module RefreshCoordinator.
Import Text Json Store Api Samples ApiFacts.

Section WithPlatform.
Variable nts : JNumber -> string.

Local Abbreviation ToString := (Json.ToString nts).
Local Abbreviation on_refresh := (Api.on_refresh nts).
Local Abbreviation resume := (Api.resume nts).
Local Abbreviation run := (Api.run nts).
Local Abbreviation call := (Api.call nts).
Local Abbreviation act := (Api.act nts).
Local Abbreviation schedule := (Api.schedule nts).
Local Abbreviation pair_of := (Api.pair_of nts).

Lemma call_events (cfg : Config) (store : gmap string string)
    (replies : list NetReply) :
  (call cfg store replies).2
  = ESend (request_interceptor store cfg)
      :: (run (AwaitResponse (request_interceptor store cfg)) store replies).2.
Proof.
  unfold Api.call, api.
  destruct (run _ store replies) as [[ph st] evs]. reflexivity.
Qed.

Lemma call_phase (cfg : Config) (store : gmap string string)
    (replies : list NetReply) :
  (call cfg store replies).1.1
  = (run (AwaitResponse (request_interceptor store cfg)) store replies).1.1.
Proof.
  unfold Api.call, api.
  destruct (run _ store replies) as [[ph st] evs]. reflexivity.
Qed.

Lemma run_settled (r : Result) (store : gmap string string)
    (replies : list NetReply) :
  run (Settled r) store replies = (Settled r, store, []).
Proof.
  induction replies as [|x xs IH]; simpl; [reflexivity|].
  rewrite IH. reflexivity.
Qed.

Lemma call_refresh_bound (cfg : Config) (store : gmap string string)
    (replies : list NetReply) :
  (count is_refresh (call cfg store replies).2 <= 1)%nat.
Proof.
  rewrite call_events. cbn [count is_refresh].
  pose proof (run_refresh_budget nts replies
                (AwaitResponse (request_interceptor store cfg)) store) as H.
  cbn [refresh_budget] in H.
  destruct (_retry (request_interceptor store cfg)); lia.
Qed.

(** C2.  Whatever the network answers, one call of [api] issues at most one
    refresh exchange and transmits the descriptor at most twice (the
    original and one replay).  A 401 always leaves the descriptor marked as
    retried, and a 401 on a descriptor already marked settles the call at
    once with that failure: the store is untouched and nothing is sent. *)
Theorem at_most_one_refresh_and_replay (cfg : Config)
    (store : gmap string string) (replies : list NetReply) (body : jsval) :
  (count is_refresh (call cfg store replies).2 <= 1)%nat
  /\ (count is_send (call cfg store replies).2 <= 2)%nat
  /\ _retry <$> descriptor (on_response cfg (Answer 401 body) store).1.1
     = Some true
  /\ on_response (set_retry cfg) (Answer 401 body) store
     = (Settled (Rejected (mkError (set_retry cfg) (Some 401%nat))), store, []).
Proof.
  split; [apply call_refresh_bound|]. split; [|split].
  - rewrite call_events. cbn [count is_send].
    pose proof (run_send_budget nts replies
                  (AwaitResponse (request_interceptor store cfg)) store) as H.
    cbn [send_budget] in H.
    destruct (_retry (request_interceptor store cfg)); lia.
  - unfold on_response, response_error. cbn.
    rewrite bool_decide_eq_true_2 by reflexivity.
    destruct (_retry cfg) eqn:E; cbn; [by rewrite E|].
    destruct (getItem "refresh_token" store) as [t|]; [|reflexivity].
    destruct (is_empty t); reflexivity.
  - unfold on_response, response_error. cbn.
    rewrite andb_false_r. reflexivity.
Qed.

(** C3, as the code has it.  A 401 on a descriptor not yet retried, with no
    refresh credential in the store (none, or an empty one): the descriptor
    is marked, no refresh exchange is made, the store is left as it is,
    the page is not redirected, and the call is rejected with the original
    error. *)
Theorem missing_refresh_credential_rejects (cfg : Config)
    (store : gmap string string) (body : jsval) :
  _retry cfg = false ->
  present (getItem "refresh_token" store) = false ->
  on_response cfg (Answer 401 body) store
  = (Settled (Rejected (mkError (set_retry cfg) (Some 401%nat))), store, []).
Proof.
  intros Hr Hp. unfold on_response, response_error. cbn.
  rewrite bool_decide_eq_true_2, Hr by reflexivity. cbn.
  unfold present in Hp.
  destruct (getItem "refresh_token" store) as [t|]; [|reflexivity].
  destruct (is_empty t); [reflexivity|discriminate].
Qed.

Lemma delivered_cons (a : Action) (rest : list Action) :
  delivered (a :: rest) = delivered [a] ++ delivered rest.
Proof. unfold delivered. cbn. destruct (carries_pair a); reflexivity. Qed.

Lemma resume_view (ph : Phase) (reply : NetReply) (store : gmap string string) :
  cred_view (resume ph reply store).1.2 = cred_view store
  \/ cred_view (resume ph reply store).1.2 = (None, None)
  \/ exists st body, reply = Answer st body
       /\ ok_status st = true /\ is_nullish body = false
       /\ cred_view (resume ph reply store).1.2 = pair_of body.
Proof.
  destruct ph as [c|c status|r]; cbn [Api.resume].
  - left. unfold on_response, response_error.
    destruct reply as [st b|]; [destruct (ok_status st)|];
      try reflexivity;
      (destruct (bool_decide _ && negb _)%bool; [|reflexivity];
       destruct (getItem "refresh_token" store) as [t|]; [|reflexivity];
       destruct (is_empty t); reflexivity).
  - unfold Api.on_refresh, refresh_failed.
    destruct reply as [st b|]; [|right; left; apply cred_view_cleared].
    destruct (ok_status st) eqn:Hok; [|right; left; apply cred_view_cleared].
    destruct (is_nullish b) eqn:Hb; [right; left; apply cred_view_cleared|].
    right; right. exists st, b. repeat split; try assumption.
    cbn. apply cred_view_set.
  - left. reflexivity.
Qed.

Lemma act_view (a : Action) (s : System) :
  cred_view (sys_store (act a s).1) = cred_view (sys_store s)
  \/ cred_view (sys_store (act a s).1) = (None, None)
  \/ exists body, body ∈ delivered [a]
       /\ cred_view (sys_store (act a s).1) = pair_of body.
Proof.
  destruct a as [c|i reply|b|]; cbn [Api.act].
  - left. reflexivity.
  - destruct (sys_calls s !! i) as [ph|]; [|left; reflexivity].
    pose proof (resume_view ph reply (sys_store s)) as H.
    destruct (resume ph reply (sys_store s)) as [[ph' st'] evs]. cbn in *.
    destruct H as [H|[H|(st & body & -> & Hok & Hb & H)]];
      [by left|by right; left|].
    right; right. exists body. split; [|assumption].
    unfold delivered. cbn. rewrite Hok, Hb. cbn.
    apply list_elem_of_singleton. reflexivity.
  - cbn. unfold login_stored, delivered. cbn.
    destruct (is_nullish b); [left; reflexivity|].
    right; right. exists b. split; [apply list_elem_of_singleton; reflexivity|].
    apply cred_view_set.
  - right; left. apply cred_view_cleared.
Qed.

Lemma schedule_view (acts : list Action) (s0 : System) :
  cred_view (sys_store (schedule acts s0).1) = cred_view (sys_store s0)
  \/ cred_view (sys_store (schedule acts s0).1) = (None, None)
  \/ exists body, body ∈ delivered acts
       /\ cred_view (sys_store (schedule acts s0).1) = pair_of body.
Proof.
  revert s0. induction acts as [|a rest IH]; intros s0; cbn [Api.schedule].
  - left. reflexivity.
  - rewrite delivered_cons.
    pose proof (act_view a s0) as Ha.
    destruct (act a s0) as [s1 ev1]. cbn [fst] in Ha.
    specialize (IH s1).
    destruct (schedule rest s1) as [s2 ev2]. cbn [fst] in *.
    destruct IH as [IH|[IH|(b & Hb & IH)]].
    + rewrite IH. destruct Ha as [Ha|[Ha|(b & Hb & Ha)]];
        [by left|by right; left|].
      right; right. exists b. split; [|assumption].
      apply elem_of_app. by left.
    + by right; left.
    + right; right. exists b. split; [|assumption].
      apply elem_of_app. by right.
Qed.

(** C8.  A refresh that succeeds writes both credentials of the response in
    the one run between two suspensions.  Over any interleaving of calls,
    logins and logouts on one store, what a reader finds at any point is
    the pair the store started with, or no pair at all, or the two
    credentials that one delivered response carried together: never one
    credential of one response beside one of another. *)
Theorem credentials_move_together (s0 : System) (acts : list Action)
    (cfg : Config) (status : option nat) (st : nat) (body : jsval)
    (store : gmap string string) :
  ok_status st = true ->
  is_nullish body = false ->
  cred_view (on_refresh cfg status (Answer st body) store).1.2 = pair_of body
  /\ (cred_view (sys_store (schedule acts s0).1) = cred_view (sys_store s0)
      \/ cred_view (sys_store (schedule acts s0).1) = (None, None)
      \/ exists b, b ∈ delivered acts
           /\ cred_view (sys_store (schedule acts s0).1) = pair_of b).
Proof.
  intros Hok Hb. split; [|apply schedule_view].
  unfold Api.on_refresh. rewrite Hok, Hb. cbn. apply cred_view_set.
Qed.

(** C10.  The refresh exchange does not come back through the response
    interceptor: when the refresh endpoint itself answers 401, the call
    settles there with the original error, the store is cleared, the page
    is redirected, and no further reply makes it do anything.  So a call
    never issues more than one refresh exchange, and it is settled after
    at most three replies. *)
Theorem refresh_failure_is_final (cfg : Config) (status : option nat)
    (body : jsval) (store : gmap string string) (rest : list NetReply)
    (cfg0 : Config) (store0 : gmap string string) (replies : list NetReply)
    (r1 r2 r3 : NetReply) :
  run (AwaitRefresh cfg status) store (Answer 401 body :: rest)
  = (Settled (Rejected (mkError cfg status)), session_cleared store, [ERedirect])
  /\ (count is_refresh (call cfg0 store0 replies).2 <= 1)%nat
  /\ is_settled (call cfg0 store0 (r1 :: r2 :: r3 :: replies)).1.1 = true.
Proof.
  split; [|split].
  - cbn [Api.run Api.resume]. unfold Api.on_refresh, refresh_failed. cbn.
    rewrite run_settled. reflexivity.
  - apply call_refresh_bound.
  - rewrite call_phase. apply steps_left_settled.
    pose proof (run_steps_left nts (r1 :: r2 :: r3 :: replies)
                  (AwaitResponse (request_interceptor store0 cfg0)) store0) as H.
    cbn [steps_left length] in H.
    destruct (_retry (request_interceptor store0 cfg0)); lia.
Qed.

End WithPlatform.

(** C3, as stated, fails: a store holding an access credential and no
    refresh credential, and a first 401.  The call settles, the access
    credential is still there and no redirect happened. *)
Lemma missing_refresh_credential_keeps_session :
  is_settled (call print_integer sample_config access_only [Answer 401 JNull]).1.1
  = true
  /\ getItem "access_token"
       (call print_integer sample_config access_only [Answer 401 JNull]).1.2
     = Some "A0"
  /\ ~ SessionInvalidated
       (call print_integer sample_config access_only [Answer 401 JNull]).1.2
       (call print_integer sample_config access_only [Answer 401 JNull]).2.
Proof.
  split; [vm_compute; reflexivity|]. split; [vm_compute; reflexivity|].
  intros [H _]. vm_compute in H. discriminate.
Qed.

Lemma missing_refresh_credential_rejects_witness :
  on_response sample_config (Answer 401 JNull) access_only
  = (Settled (Rejected (mkError (set_retry sample_config) (Some 401%nat))),
     access_only, []).
Proof.
  apply (missing_refresh_credential_rejects sample_config access_only JNull).
  - reflexivity.
  - vm_compute; reflexivity.
Defined.

Lemma credentials_move_together_witness :
  cred_view
    (on_refresh print_integer (set_retry sample_config) (Some 401%nat)
       (Answer 200 (token_body "A1" "R1")) both_tokens).1.2
  = (Some "A1", Some "R1").
Proof.
  refine (proj1 (credentials_move_together print_integer
            (mkSystem both_tokens [])
            [Start sample_config; Deliver 0 (Answer 401 JNull);
             Deliver 0 (Answer 200 (token_body "A1" "R1"))]
            (set_retry sample_config) (Some 401%nat) 200
            (token_body "A1" "R1") both_tokens _ _)).
  - reflexivity.
  - reflexivity.
Defined.

(** The scenario of the spec, run: 401, refresh, replay, 401 again. *)
Example double_401 :
  let r := call print_integer sample_config both_tokens
             [Answer 401 JNull; Answer 200 (token_body "A1" "R1");
              Answer 401 JNull; Answer 401 JNull] in
  is_settled r.1.1 = true
  /\ _retry <$> descriptor r.1.1 = Some true
  /\ map is_refresh r.2 = [false; true; false]
  /\ map is_send r.2 = [true; false; true]
  /\ cred_view r.1.2 = (Some "A1", Some "R1").
Proof. vm_compute. repeat split. Qed.

End RefreshCoordinator.

(* ===================================================================== *)
(** * More about the stream decoder                                       *)
(* ===================================================================== *)

Module DecoderMore.
Import Text Json Store Stream StreamFacts Samples.

(** A call that is a content call with a falsy fragment. *)
Definition falsy_chunk (c : Callback) : bool :=
  match c with CChunk v => negb (truthy v) | _ => false end.

(** A call that does not settle a turn. *)
Definition only_content (c : Callback) : bool :=
  match c with CChunk _ => true | _ => false end.

(** The response was ok, so that its body is read. *)
Definition is_read (outcome : FetchOutcome) : bool :=
  match outcome with FetchOk _ => true | _ => false end.

Lemma split_nl_nonempty (s : string) : split_nl s <> [].
Proof.
  destruct s as [|c s]; simpl; [discriminate|].
  destruct (Ascii.eqb c nl); [discriminate|].
  destruct (split_nl s); discriminate.
Qed.

Lemma split_nl_app (a b : string) :
  split_nl (a +:+ String nl b) = split_nl a ++ split_nl b.
Proof.
  induction a as [|c a IH]; simpl.
  - reflexivity.
  - destruct (Ascii.eqb c nl); [by rewrite IH|].
    rewrite IH. pose proof (split_nl_nonempty a) as H.
    destruct (split_nl a); [contradiction|reflexivity].
Qed.

Lemma stream_calls_chunk (nts : JNumber -> string) (v : string)
    (rest : list Read) :
  stream_calls nts (FetchOk (Chunk v :: rest))
  = concat (map line_calls (split_nl (decode v)))
    ++ stream_calls nts (FetchOk rest).
Proof.
  unfold stream_calls. cbn [streamChat read_loop].
  rewrite log_read_loop, chunk_calls. reflexivity.
Qed.

(** The text of whole lines, each ended by a newline. *)
Definition unlines (ls : list string) : string :=
  fold_right (fun l acc => l +:+ String nl acc) EmptyString ls.

Lemma split_unlines (ls : list string) :
  forallb no_nl ls = true -> split_nl (unlines ls) = ls ++ [EmptyString].
Proof.
  induction ls as [|l ls IH]; cbn [forallb unlines fold_right]; intros H.
  - reflexivity.
  - apply andb_true_iff in H as [Hl Hls].
    rewrite split_nl_line by assumption. fold (unlines ls).
    rewrite (IH Hls). reflexivity.
Qed.

(** When every read decodes to whole lines, the calls of the stream are
    those of the lines, in order, however the lines are grouped in reads. *)
Lemma stream_calls_whole_lines (nts : JNumber -> string)
    (values : list string) :
  forall groups : list (list string),
    map decode values = map unlines groups ->
    forallb no_nl (concat groups) = true ->
    stream_calls nts (FetchOk (map Chunk values))
    = concat (map line_calls (concat groups)).
Proof.
  induction values as [|v values IH]; intros [|g groups] E N;
    try discriminate.
  - reflexivity.
  - cbn [map] in E. injection E as Ev Er.
    cbn [concat] in N. rewrite forallb_app in N.
    apply andb_true_iff in N as [Ng Nr].
    cbn [map concat]. rewrite stream_calls_chunk, Ev, (split_unlines g Ng).
    rewrite (IH groups Er Nr), !map_app, !concat_app.
    cbn [map concat]. change (line_calls EmptyString) with (@nil Callback).
    rewrite !app_nil_r. reflexivity.
Qed.

Lemma line_calls_truthy (l : string) :
  forallb (fun c => negb (falsy_chunk c)) (line_calls l) = true.
Proof.
  unfold line_calls, on_line, log_chunk, log_done, log_error.
  destruct (startsWith l "data: "); [|reflexivity].
  destruct (JSON_parse (slice 6 l)) as [d|]; [|reflexivity].
  destruct (is_nullish d); [reflexivity|].
  destruct (truthy (get_prop d "content")) eqn:Hc,
           (truthy (get_prop d "done")),
           (truthy (get_prop d "error")); cbn; rewrite ?Hc; reflexivity.
Qed.

Section AnyCallbacks.
Variable nts : JNumber -> string.
Context {S : Type}.
Variables onChunk onDone onError : jsval -> S -> S.

Local Abbreviation stream := (streamChat nts onChunk onDone onError).
Local Abbreviation loop := (read_loop onChunk onDone onError).
Local Abbreviation chunk := (on_chunk onChunk onDone onError).

Lemma on_chunk_cut (a b : string) (s : S) :
  startsWith b byte_order_mark = false ->
  chunk s (a +:+ String nl b) = chunk (chunk s (a +:+ String nl EmptyString)) b.
Proof.
  intros H. unfold on_chunk. rewrite (decode_cut a b H).
  destruct (decode_ends_nl a) as [w Hw].
  change (a +:+ String nl EmptyString) with (a +:+ chr nl).
  rewrite Hw, append_assoc.
  change (chr nl +:+ decode b) with (String nl (decode b)).
  change (chr nl) with (String nl EmptyString).
  rewrite !split_nl_app, !fold_left_app. reflexivity.
Qed.

(** Cutting a read in two right after a newline changes nothing, as long
    as the second piece does not begin with a byte order mark: the same
    callbacks are made in the same order, wherever in the stream the read
    stands and whatever the callbacks do. *)
Theorem cut_after_newline_is_harmless (pre post : list Read) (a b : string)
    (s : S) :
  startsWith b byte_order_mark = false ->
  stream (FetchOk (pre ++ Chunk (a +:+ String nl b) :: post)) s
  = stream (FetchOk (pre ++ Chunk (a +:+ String nl EmptyString)
                          :: Chunk b :: post)) s.
Proof.
  intros H. cbn [streamChat]. revert s.
  induction pre as [|[v|msg] pre IH]; intros s; cbn [app read_loop].
  - rewrite (on_chunk_cut a b s H). reflexivity.
  - apply IH.
  - reflexivity.
Qed.

(** A line that does not parse, between two lines that each carry one
    content frame, in reads that each decode to whole lines, however the
    three lines are grouped in reads: the callbacks made are exactly the
    two content calls, in order; nothing is called for the bad line,
    [onError] is not called, and the state is the one the two calls
    produce. *)
Theorem bad_line_is_skipped (l1 bad l2 : string) (c1 c2 : jsval)
    (values : list string) (groups : list (list string)) (s : S) :
  no_nl l1 = true -> no_nl bad = true -> no_nl l2 = true ->
  line_calls l1 = [CChunk c1] ->
  line_calls l2 = [CChunk c2] ->
  (startsWith bad "data: " = true -> JSON_parse (slice 6 bad) = None) ->
  map decode values = map unlines groups ->
  concat groups = [l1; bad; l2] ->
  stream_calls nts (FetchOk (map Chunk values)) = [CChunk c1; CChunk c2]
  /\ stream (FetchOk (map Chunk values)) s = onChunk c2 (onChunk c1 s).
Proof.
  intros N1 Nb N2 H1 H2 Hb Hv Hg.
  assert (E : stream_calls nts (FetchOk (map Chunk values))
              = [CChunk c1; CChunk c2]).
  { rewrite (stream_calls_whole_lines nts values groups Hv).
    - rewrite Hg. cbn [map concat].
      rewrite H1, H2, (line_calls_dropped bad Hb). reflexivity.
    - rewrite Hg. cbn [forallb]. rewrite N1, Nb, N2. reflexivity. }
  split; [exact E|].
  rewrite streamChat_replay, E. reflexivity.
Qed.

End AnyCallbacks.

Lemma cut_after_newline_is_harmless_witness :
  stream_calls print_integer
    (FetchOk [Chunk (content_line "A" +:+ String nl (content_line "B" +:+ eol))])
  = stream_calls print_integer
      (FetchOk [Chunk (content_line "A" +:+ String nl EmptyString);
                Chunk (content_line "B" +:+ eol)]).
Proof.
  refine (cut_after_newline_is_harmless print_integer
            log_chunk log_done log_error [] []
            (content_line "A") (content_line "B" +:+ eol) [] _).
  vm_compute; reflexivity.
Defined.

(** The mark matters: inside a read it stays in the text and hides the
    prefix of its line; at the start of a read it is dropped. *)
Example mark_is_dropped_after_a_cut :
  let marked := byte_order_mark +:+ content_line "B" +:+ eol in
  stream_calls print_integer
    (FetchOk [Chunk (content_line "A" +:+ String nl marked)])
  = [CChunk (JStr "A")]
  /\ stream_calls print_integer
       (FetchOk [Chunk (content_line "A" +:+ String nl EmptyString);
                 Chunk marked])
     = [CChunk (JStr "A"); CChunk (JStr "B")].
Proof. split; vm_compute; reflexivity. Qed.

(** Bytes that are not UTF-8 reach the line as U+FFFD; a sequence cut by
    the end of a read is lost to both reads. *)
Example ill_formed_bytes_are_replaced :
  decode (String "255" "a") = replacement +:+ "a"
  /\ decode (String "226" (String "130" EmptyString)) = replacement
  /\ decode (String "172" "x") = replacement +:+ "x"
  /\ decode (String "226" (String "130" (String "172" "x")))
     = String "226" (String "130" (String "172" "x")).
Proof. repeat split; vm_compute; reflexivity. Qed.

Lemma bad_line_is_skipped_witness :
  stream_calls print_integer
    (FetchOk (map Chunk [content_line "A" +:+ eol;
                         bad_line +:+ eol +:+ content_line "B" +:+ eol]))
  = [CChunk (JStr "A"); CChunk (JStr "B")].
Proof.
  refine (proj1 (bad_line_is_skipped print_integer
            log_chunk log_done log_error
            (content_line "A") bad_line (content_line "B")
            (JStr "A") (JStr "B")
            [content_line "A" +:+ eol;
             bad_line +:+ eol +:+ content_line "B" +:+ eol]
            [[content_line "A"]; [bad_line; content_line "B"]] []
            _ _ _ _ _ _ _ _)).
  - vm_compute; reflexivity.
  - vm_compute; reflexivity.
  - vm_compute; reflexivity.
  - vm_compute; reflexivity.
  - vm_compute; reflexivity.
  - intros _. vm_compute; reflexivity.
  - vm_compute; reflexivity.
  - reflexivity.
Defined.

(** [onChunk] is never handed a falsy fragment: no empty string, no zero,
    no [false], no [null], whatever the response was. *)
Theorem onChunk_never_gets_falsy (nts : JNumber -> string)
    (outcome : FetchOutcome) :
  forallb (fun c => negb (falsy_chunk c)) (stream_calls nts outcome) = true.
Proof.
  destruct outcome as [msg|[e|msg]|source]; try reflexivity.
  - unfold stream_calls. cbn [streamChat]. destruct (is_nullish e); reflexivity.
  - induction source as [|[v|msg] rest IH].
    + reflexivity.
    + rewrite stream_calls_chunk, forallb_app, IH, andb_true_r.
      induction (split_nl (decode v)) as [|l ls IHl]; [reflexivity|].
      cbn [map concat]. rewrite forallb_app, line_calls_truthy, IHl.
      reflexivity.
    + reflexivity.
Qed.

(** A read that fails in the middle of a stream: the frames of the reads
    before it are delivered, then [onError] is called once with the
    message, and no later read is looked at. *)
Theorem read_error_ends_the_stream (nts : JNumber -> string)
    (values : list string) (msg : string) (rest : list Read) :
  stream_calls nts (FetchOk (map Chunk values ++ ReadError msg :: rest))
  = stream_calls nts (FetchOk (map Chunk values)) ++ [CError (JStr msg)].
Proof.
  induction values as [|v vs IH]; cbn [map app].
  - reflexivity.
  - rewrite !stream_calls_chunk, IH, app_assoc. reflexivity.
Qed.

End DecoderMore.

(* ===================================================================== *)
(** * More about the chat session controller                              *)
(* ===================================================================== *)

Module ControllerMore.
Import Text Json Store Stream Chat ChatPage StreamFacts Samples Controller
  DecoderMore.

Lemma set_content_twice (c1 c2 : string) (m : Message) :
  set_content c2 (set_content c1 m) = set_content c2 m.
Proof. reflexivity. Qed.

Lemma set_content_same (m : Message) : set_content (content m) m = m.
Proof. destruct m; reflexivity. Qed.

Section WithPlatform.
Variable nts : JNumber -> string.

Local Abbreviation ToString := (Json.ToString nts).
Local Abbreviation onChunk := (Chat.onChunk nts).
Local Abbreviation onError := (Chat.onError nts).
Local Abbreviation stream_turn := (Chat.stream_turn nts).

Lemma onChunk_snoc (v : jsval) (s : Session) (ms : list Message) (m : Message) :
  messages (ui s) = ms ++ [m] ->
  messages (ui (onChunk v s))
  = ms ++ [if String.eqb (role m) "assistant"
           then set_content (content m +:+ ToString v) m else m].
Proof.
  intros Hs. unfold Chat.onChunk, on_ui, with_messages. cbn [ui].
  rewrite Hs, update_last_snoc. reflexivity.
Qed.

Lemma onError_snoc (v : jsval) (s : Session) (ms : list Message) (m : Message) :
  messages (ui s) = ms ++ [m] ->
  messages (ui (onError v s))
  = ms ++ [if String.eqb (role m) "assistant"
           then set_content ("Error: " +:+ ToString v) m else m].
Proof.
  intros Hs. unfold Chat.onError, on_ui, with_messages, with_flags.
  cbn [ui messages]. rewrite Hs, update_last_snoc. reflexivity.
Qed.

Lemma replay_keeps_the_rest (snap : ChatState) (calls : list Callback)
    (ms : list Message) (m : Message) :
  forall (s : Session) (c : string),
    messages (ui s) = ms ++ [set_content c m] ->
    exists c',
      messages (ui (fold_left (replay onChunk (onDone snap) onError) calls s))
      = ms ++ [set_content c' m].
Proof.
  induction calls as [|k calls IH]; intros s c Hs; cbn [fold_left].
  - exists c. assumption.
  - destruct k as [v|v|v]; cbn [replay].
    + apply (IH _ (if String.eqb (role m) "assistant"
                   then (c +:+ ToString v) else c)).
      rewrite (onChunk_snoc v s ms _ Hs). cbn [role content set_content].
      destruct (String.eqb (role m) "assistant"); reflexivity.
    + apply (IH _ c). rewrite onDone_messages. assumption.
    + apply (IH _ (if String.eqb (role m) "assistant"
                   then ("Error: " +:+ ToString v) else c)).
      rewrite (onError_snoc v s ms _ Hs). cbn [role content set_content].
      destruct (String.eqb (role m) "assistant"); reflexivity.
Qed.

(** Whatever a stream delivers, it changes nothing in the message list but
    the content of the last message: the messages before it, the length of
    the list, and the identifier, role, model and date of the last message
    all stay. *)
Theorem stream_touches_last_content_only (snap : ChatState)
    (outcome : FetchOutcome) (s : Session) (ms : list Message) (m : Message) :
  messages (ui s) = ms ++ [m] ->
  exists c, messages (ui (stream_turn snap outcome s)) = ms ++ [set_content c m].
Proof.
  intros Hs. unfold Chat.stream_turn. rewrite streamChat_replay.
  apply (replay_keeps_the_rest snap _ ms m s (content m)).
  rewrite set_content_same. assumption.
Qed.

(** The text a run of fragments adds to a message. *)
Definition joined (fragments : list jsval) : string :=
  fold_right (fun v acc => ToString v +:+ acc) EmptyString fragments.

(** Content frames only ever append, and in the order they arrive: after
    any run of fragments the assistant message holds what it held before
    followed by the fragments, each printed as JavaScript prints it, one
    after the other. *)
Theorem fragments_append_in_order (fragments : list jsval) (s : Session)
    (ms : list Message) (m : Message) :
  messages (ui s) = ms ++ [m] ->
  role m = "assistant" ->
  messages (ui (fold_left (fun s v => onChunk v s) fragments s))
  = ms ++ [set_content (content m +:+ joined fragments) m].
Proof.
  revert s m. induction fragments as [|v vs IH]; intros s m Hs Hr;
    cbn [fold_left joined fold_right].
  - replace (content m +:+ EmptyString) with (content m).
    + rewrite set_content_same. assumption.
    + clear. induction (content m) as [|x c IH]; [reflexivity|].
      change (String x c = String x (c +:+ EmptyString)). by rewrite <- IH.
  - rewrite (IH (onChunk v s) (set_content (content m +:+ ToString v) m)).
    + cbn [content set_content]. rewrite append_assoc. reflexivity.
    + apply onChunk_messages; assumption.
    + exact Hr.
Qed.

Lemma replay_content_keeps_flags (snap : ChatState) (calls : list Callback) :
  forall s : Session,
    forallb only_content calls = true ->
    isLoading (ui (fold_left (replay onChunk (onDone snap) onError) calls s))
    = isLoading (ui s)
    /\ isStreaming (ui (fold_left (replay onChunk (onDone snap) onError) calls s))
       = isStreaming (ui s).
Proof.
  induction calls as [|k calls IH]; intros s H; cbn [fold_left].
  - split; reflexivity.
  - cbn [forallb] in H. apply andb_true_iff in H as [Hk H].
    destruct k as [v|v|v]; try discriminate. cbn [replay].
    destruct (IH (onChunk v s) H) as [-> ->]. apply onChunk_flags.
Qed.

(** A stream that ends without a done frame, an error frame or a failure
    never settles the turn: both flags stay up, and every later submission
    is turned away. *)
Theorem unfinished_stream_leaves_session_busy (snap : ChatState)
    (outcome : FetchOutcome) (s : Session) (text : string) (clk : Clock)
    (store : gmap string string) :
  forallb only_content (stream_calls nts outcome) = true ->
  isLoading (ui s) = true ->
  isStreaming (ui s) = true ->
  let s' := stream_turn snap outcome s in
  isLoading (ui s') = true
  /\ isStreaming (ui s') = true
  /\ handleSendMessage (ui s') text clk store s' = (s', None).
Proof.
  intros Hc HL HS s'.
  assert (isLoading (ui s') = true /\ isStreaming (ui s') = true) as [H1 H2].
  { unfold s', Chat.stream_turn. rewrite streamChat_replay.
    destruct (replay_content_keeps_flags snap _ s Hc) as [-> ->].
    split; assumption. }
  repeat split; try assumption.
  apply handleSendMessage_busy. rewrite H1. reflexivity.
Qed.

(** When [fetch] itself fails, or the response is not ok, nothing is read:
    the turn is settled as an error, both flags go down and the assistant
    message is replaced by the error text.  An error body with a non-empty
    string [detail] shows that detail, a body without [detail] shows the
    stock message. *)
Theorem failed_request_settles_with_error (snap : ChatState)
    (outcome : FetchOutcome) (s : Session) (ms : list Message) (m : Message)
    (d : string) :
  messages (ui s) = ms ++ [m] ->
  role m = "assistant" ->
  is_read outcome = false ->
  is_empty d = false ->
  (exists msg,
     stream_calls nts outcome = [CError (JStr msg)]
     /\ messages (ui (stream_turn snap outcome s))
        = ms ++ [set_content ("Error: " +:+ msg) m]
     /\ isLoading (ui (stream_turn snap outcome s)) = false
     /\ isStreaming (ui (stream_turn snap outcome s)) = false)
  /\ stream_calls nts (FetchNotOk (BodyJson (JObj [("detail", JStr d)])))
     = [CError (JStr d)]
  /\ stream_calls nts (FetchNotOk (BodyJson (JObj [])))
     = [CError (JStr "Failed to send message")].
Proof.
  intros Hs Hr Hne Hd. split.
  - assert (exists msg, stream_calls nts outcome = [CError (JStr msg)])
      as [msg Hmsg].
    { destruct outcome as [msg|[e|msg]|source].
      - eexists; reflexivity.
      - unfold stream_calls. cbn [streamChat].
        destruct (is_nullish e); eexists; reflexivity.
      - eexists; reflexivity.
      - discriminate. }
    exists msg. split; [assumption|].
    unfold Chat.stream_turn. rewrite streamChat_replay, Hmsg.
    cbn [fold_left replay].
    split; [apply onError_messages; assumption|].
    unfold Chat.onError, on_ui, with_messages, with_flags. cbn.
    destruct (update_last _ _); split; reflexivity.
  - split; [|reflexivity].
    unfold stream_calls. cbn. destruct d; [discriminate|reflexivity].
Qed.

(** Starting a new chat while a turn is in flight does not stop it: both
    flags stay as they were, so submissions are still turned away, and the
    next content or error frame finds an empty list, where its updater
    throws. *)
Theorem new_chat_does_not_cancel (s : Session) (text : string) (clk : Clock)
    (store : gmap string string) (v : jsval) :
  isLoading (ui s) = true ->
  isStreaming (ui s) = true ->
  let s' := handleNewChat s in
  messages (ui s') = []
  /\ currentConversation (ui s') = None
  /\ handleSendMessage (ui s') text clk store s' = (s', None)
  /\ render_failed (ui (onChunk v s')) = true
  /\ messages (ui (onChunk v s')) = []
  /\ render_failed (ui (onError v s')) = true.
Proof.
  intros HL HS s'. repeat split.
  apply handleSendMessage_busy. unfold s', handleNewChat. cbn. rewrite HL.
  reflexivity.
Qed.

(** The first turn of a new conversation: the done frame lowers the flags
    at once, but the identifier it carries is adopted only when the reload
    of the conversation list settles.  A message submitted in between is
    accepted and goes out with no conversation identifier; one submitted
    after the reload carries the identifier of the done frame. *)
Theorem identifier_is_adopted_after_reload (snap : ChatState) (s : Session)
    (cid : jsval) (reload : option jsval) (text : string) (clk : Clock)
    (store : gmap string string) :
  currentConversation snap = None ->
  currentConversation (ui s) = None ->
  pending_adopt s = [] ->
  let settled := onDone snap cid s in
  let reloaded := loadConversations_settled reload settled in
  (Stream.conversation_id <$>
     (fetch_body <$> (handleSendMessage (ui settled) text clk store settled).2))
  = Some JUndefined
  /\ (Stream.conversation_id <$>
        (fetch_body <$>
           (handleSendMessage (ui reloaded) text clk store reloaded).2))
     = Some cid.
Proof.
  intros Hsnap Hs Hp settled reloaded.
  unfold reloaded, settled, onDone, loadConversations_settled,
    handleSendMessage.
  rewrite Hsnap. destruct reload; cbn; rewrite ?Hs, ?Hp; cbn;
    repeat split; reflexivity.
Qed.

End WithPlatform.

Lemma stream_touches_last_content_only_witness :
  exists c,
    messages (ui (stream_turn print_integer (ui fresh_session)
                    (FetchOk [Chunk abd_input]) in_flight))
    = [mkMessage 1000 "user" "hello" None "t0"]
      ++ [set_content c
            (mkMessage 1001 "assistant" EmptyString (Some "llama") "t0")].
Proof.
  apply (stream_touches_last_content_only print_integer (ui fresh_session)
           (FetchOk [Chunk abd_input]) in_flight
           [mkMessage 1000 "user" "hello" None "t0"]
           (mkMessage 1001 "assistant" EmptyString (Some "llama") "t0")).
  vm_compute; reflexivity.
Defined.

Lemma fragments_append_in_order_witness :
  messages (ui (fold_left (fun s v => onChunk print_integer v s)
                  [JStr "Hel"; JStr "lo"; JInt 7; JBool true] in_flight))
  = [mkMessage 1000 "user" "hello" None "t0"]
    ++ [set_content
          (EmptyString
             +:+ joined print_integer [JStr "Hel"; JStr "lo"; JInt 7; JBool true])
          (mkMessage 1001 "assistant" EmptyString (Some "llama") "t0")].
Proof.
  apply (fragments_append_in_order print_integer
           [JStr "Hel"; JStr "lo"; JInt 7; JBool true] in_flight
           [mkMessage 1000 "user" "hello" None "t0"]
           (mkMessage 1001 "assistant" EmptyString (Some "llama") "t0")).
  - vm_compute; reflexivity.
  - reflexivity.
Defined.

Lemma unfinished_stream_leaves_session_busy_witness :
  handleSendMessage
    (ui (stream_turn print_integer (ui fresh_session)
           (FetchOk [Chunk (content_line "A" +:+ eol)]) in_flight))
    "again" sample_clock access_only
    (stream_turn print_integer (ui fresh_session)
       (FetchOk [Chunk (content_line "A" +:+ eol)]) in_flight)
  = (stream_turn print_integer (ui fresh_session)
       (FetchOk [Chunk (content_line "A" +:+ eol)]) in_flight, None).
Proof.
  refine (proj2 (proj2 (unfinished_stream_leaves_session_busy print_integer
            (ui fresh_session) (FetchOk [Chunk (content_line "A" +:+ eol)])
            in_flight "again" sample_clock access_only _ _ _))).
  - vm_compute; reflexivity.
  - reflexivity.
  - reflexivity.
Defined.

Lemma failed_request_settles_with_error_witness :
  stream_calls print_integer
    (FetchNotOk (BodyJson (JObj [("detail", JStr "Rate limit exceeded")])))
  = [CError (JStr "Rate limit exceeded")].
Proof.
  refine (proj1 (proj2 (failed_request_settles_with_error print_integer
            (ui fresh_session) (FetchFailed "Failed to fetch") in_flight
            [mkMessage 1000 "user" "hello" None "t0"]
            (mkMessage 1001 "assistant" EmptyString (Some "llama") "t0")
            "Rate limit exceeded" _ _ _ _))).
  - vm_compute; reflexivity.
  - reflexivity.
  - reflexivity.
  - reflexivity.
Defined.

Lemma new_chat_does_not_cancel_witness :
  messages (ui (handleNewChat in_flight)) = [].
Proof.
  refine (proj1 (new_chat_does_not_cancel print_integer in_flight "again"
            sample_clock access_only (JStr "late") _ _)).
  - reflexivity.
  - reflexivity.
Defined.

Lemma identifier_is_adopted_after_reload_witness :
  (Stream.conversation_id <$>
     (fetch_body <$>
        (handleSendMessage (ui (onDone (ui fresh_session) (JInt 7) in_flight))
           "again" sample_clock access_only
           (onDone (ui fresh_session) (JInt 7) in_flight)).2))
  = Some JUndefined.
Proof.
  refine (proj1 (identifier_is_adopted_after_reload (ui fresh_session)
            in_flight (JInt 7) None "again" sample_clock access_only _ _ _)).
  - reflexivity.
  - reflexivity.
  - reflexivity.
Defined.

End ControllerMore.

(* ===================================================================== *)
(** * More about the refresh coordinator                                  *)
(* ===================================================================== *)

Module RefreshMore.
Import Text Json Store Api Samples ApiFacts RefreshCoordinator.

(** A pending refresh exchange is the only thing that may still lead to a
    redirect that no later exchange accounts for. *)
Definition redirect_credit (ph : Phase) : nat :=
  match ph with AwaitRefresh _ _ => 1 | _ => 0 end.

(** The refresh exchange did not yield a pair: a status outside 2xx, no
    answer at all, or a body that cannot be destructured. *)
Definition refresh_rejected (reply : NetReply) : bool :=
  match reply with
  | Answer st body => (negb (ok_status st) || is_nullish body)%bool
  | NoAnswer => true
  end.

Definition is_credential_key (k : string) : bool :=
  (String.eqb k "access_token" || String.eqb k "refresh_token")%bool.

Lemma not_401 (status : nat) :
  status <> 401%nat -> bool_decide (Some status = Some 401%nat) = false.
Proof. intros H. apply bool_decide_eq_false_2. congruence. Qed.

Lemma credential_key_ne (k : string) :
  is_credential_key k = false -> "access_token" <> k /\ "refresh_token" <> k.
Proof.
  unfold is_credential_key. intros H. apply orb_false_iff in H as [H1 H2].
  apply String.eqb_neq in H1, H2. split; congruence.
Qed.

Section WithPlatform.
Variable nts : JNumber -> string.

Local Abbreviation ToString := (Json.ToString nts).
Local Abbreviation on_refresh := (Api.on_refresh nts).
Local Abbreviation resume := (Api.resume nts).
Local Abbreviation run := (Api.run nts).
Local Abbreviation call := (Api.call nts).
Local Abbreviation act := (Api.act nts).
Local Abbreviation schedule := (Api.schedule nts).
Local Abbreviation pair_of := (Api.pair_of nts).

(** The store after a refresh that succeeded with [body]. *)
Definition refreshed (body : jsval) (store : gmap string string)
  : gmap string string :=
  setItem "refresh_token" (ToString (get_prop body "refresh_token"))
    (setItem "access_token" (ToString (get_prop body "access_token")) store).

(** The descriptor as it is replayed after that refresh. *)
Definition replayed (body : jsval) (store : gmap string string) (sent : Config)
  : Config :=
  request_interceptor (refreshed body store)
    (set_header "Authorization"
       ("Bearer " +:+ ToString (get_prop body "access_token"))
       (set_retry sent)).

Lemma replayed_header (body : jsval) (store : gmap string string)
    (sent : Config) :
  headers (replayed body store sent) !! "Authorization"
  = Some ("Bearer " +:+ ToString (get_prop body "access_token")).
Proof.
  unfold replayed, refreshed, request_interceptor, getItem, setItem.
  rewrite lookup_insert_ne by discriminate. rewrite lookup_insert_eq.
  destruct (is_empty _); cbn; apply lookup_insert_eq.
Qed.

Lemma replayed_rest (body : jsval) (store : gmap string string)
    (sent : Config) :
  delete "Authorization" (headers (replayed body store sent))
  = delete "Authorization" (headers sent)
  /\ url (replayed body store sent) = url sent
  /\ method (replayed body store sent) = method sent
  /\ data (replayed body store sent) = data sent
  /\ _retry (replayed body store sent) = true.
Proof.
  unfold replayed, refreshed, request_interceptor, getItem, setItem.
  rewrite lookup_insert_ne by discriminate. rewrite lookup_insert_eq.
  destruct (is_empty _); cbn; rewrite ?delete_insert_eq; repeat split;
    reflexivity.
Qed.

Lemma first_401_starts_refresh (cfg : Config) (store : gmap string string)
    (rt : string) (b : jsval) :
  _retry cfg = false ->
  getItem "refresh_token" store = Some rt ->
  is_empty rt = false ->
  on_response (request_interceptor store cfg) (Answer 401 b) store
  = (AwaitRefresh (set_retry (request_interceptor store cfg)) (Some 401%nat),
     store, [ERefresh rt]).
Proof.
  intros Hr Ht He. unfold on_response, response_error. cbn.
  rewrite bool_decide_eq_true_2, request_interceptor_retry, Hr, Ht, He
    by reflexivity.
  reflexivity.
Qed.

Lemma refresh_success (cfg : Config) (status : option nat) (st : nat)
    (body : jsval) (store : gmap string string) :
  ok_status st = true ->
  is_nullish body = false ->
  on_refresh cfg status (Answer st body) store
  = (AwaitResponse
       (request_interceptor (refreshed body store)
          (set_header "Authorization"
             ("Bearer " +:+ ToString (get_prop body "access_token")) cfg)),
     refreshed body store,
     [ESend (request_interceptor (refreshed body store)
               (set_header "Authorization"
                  ("Bearer " +:+ ToString (get_prop body "access_token")) cfg))]).
Proof.
  intros Hok Hb. unfold Api.on_refresh. rewrite Hok, Hb. reflexivity.
Qed.

Lemma run_step ph store r rs ph1 st1 ev1 :
  resume ph r store = (ph1, st1, ev1) ->
  run ph store (r :: rs)
  = ((run ph1 st1 rs).1.1, (run ph1 st1 rs).1.2, ev1 ++ (run ph1 st1 rs).2).
Proof.
  intros H. cbn [Api.run]. rewrite H.
  destruct (run ph1 st1 rs) as [[ph2 st2] ev2]. reflexivity.
Qed.

Lemma call_run cfg store replies :
  call cfg store replies
  = ((run (AwaitResponse (request_interceptor store cfg)) store replies).1.1,
     (run (AwaitResponse (request_interceptor store cfg)) store replies).1.2,
     ESend (request_interceptor store cfg)
       :: (run (AwaitResponse (request_interceptor store cfg)) store replies).2).
Proof.
  unfold Api.call, api.
  destruct (run _ store replies) as [[ph st] evs]. reflexivity.
Qed.

(** An error that is not a 401, and a request that gets no answer at all,
    go to the caller as they are: no refresh exchange, no redirect, the
    store untouched, the descriptor not marked. *)
Theorem other_failures_pass_through (cfg : Config)
    (store : gmap string string) (status : nat) (body : jsval)
    (rest : list NetReply) :
  ok_status status = false ->
  status <> 401%nat ->
  let sent := request_interceptor store cfg in
  call cfg store (Answer status body :: rest)
  = (Settled (Rejected (mkError sent (Some status))), store, [ESend sent])
  /\ call cfg store (NoAnswer :: rest)
     = (Settled (Rejected (mkError sent None)), store, [ESend sent]).
Proof.
  intros Hok Hne sent. unfold Api.call, api. cbn [Api.run Api.resume].
  unfold on_response, response_error. rewrite Hok, (not_401 _ Hne).
  rewrite (bool_decide_eq_false_2 (None = Some 401%nat)) by discriminate.
  cbn. rewrite !run_settled. split; reflexivity.
Qed.

(** The whole recovery: a first 401, a refresh that succeeds, a replay that
    succeeds.  The caller gets the response of the replay; the refresh
    exchange carried the stored refresh credential; the store holds the new
    pair; the replay is the request that was sent, marked as retried, with
    the new access credential as its Authorization header and nothing else
    changed. *)
Theorem refreshed_call_succeeds (cfg : Config) (store : gmap string string)
    (rt : string) (b1 body b3 : jsval) (st2 st3 : nat) (rest : list NetReply) :
  _retry cfg = false ->
  getItem "refresh_token" store = Some rt ->
  is_empty rt = false ->
  ok_status st2 = true ->
  is_nullish body = false ->
  ok_status st3 = true ->
  let sent := request_interceptor store cfg in
  call cfg store (Answer 401 b1 :: Answer st2 body :: Answer st3 b3 :: rest)
  = (Settled (Fulfilled st3 b3), refreshed body store,
     [ESend sent; ERefresh rt; ESend (replayed body store sent)])
  /\ cred_view (refreshed body store) = pair_of body
  /\ headers (replayed body store sent) !! "Authorization"
     = Some ("Bearer " +:+ ToString (get_prop body "access_token"))
  /\ delete "Authorization" (headers (replayed body store sent))
     = delete "Authorization" (headers sent)
  /\ url (replayed body store sent) = url sent
  /\ method (replayed body store sent) = method sent
  /\ data (replayed body store sent) = data sent
  /\ _retry (replayed body store sent) = true.
Proof.
  intros Hr Ht He Hok2 Hb Hok3 sent.
  split; [|split; [apply cred_view_set|split; [apply replayed_header|
                                              apply replayed_rest]]].
  rewrite call_run.
  rewrite (run_step (AwaitResponse (request_interceptor store cfg)) store
             (Answer 401 b1) _ _ _ _
             (first_401_starts_refresh cfg store rt b1 Hr Ht He)).
  rewrite (run_step (AwaitRefresh (set_retry (request_interceptor store cfg))
                       (Some 401%nat)) store (Answer st2 body) _ _ _ _
             (refresh_success _ _ st2 body store Hok2 Hb)).
  erewrite run_step; [|cbn [Api.resume]; unfold on_response; rewrite Hok3;
                       reflexivity].
  rewrite run_settled. reflexivity.
Qed.

(** When the replay fails in its turn, with any status, that failure is
    what the caller gets; the pair the refresh stored stays in the store
    and the page is not redirected. *)
Theorem replay_failure_keeps_new_pair (cfg : Config)
    (store : gmap string string) (rt : string) (b1 body b3 : jsval)
    (st2 st3 : nat) (rest : list NetReply) :
  _retry cfg = false ->
  getItem "refresh_token" store = Some rt ->
  is_empty rt = false ->
  ok_status st2 = true ->
  is_nullish body = false ->
  ok_status st3 = false ->
  let sent := request_interceptor store cfg in
  call cfg store (Answer 401 b1 :: Answer st2 body :: Answer st3 b3 :: rest)
  = (Settled (Rejected (mkError (replayed body store sent) (Some st3))),
     refreshed body store,
     [ESend sent; ERefresh rt; ESend (replayed body store sent)])
  /\ cred_view (refreshed body store) = pair_of body.
Proof.
  intros Hr Ht He Hok2 Hb Hok3 sent. split; [|apply cred_view_set].
  rewrite call_run.
  rewrite (run_step (AwaitResponse (request_interceptor store cfg)) store
             (Answer 401 b1) _ _ _ _
             (first_401_starts_refresh cfg store rt b1 Hr Ht He)).
  rewrite (run_step (AwaitRefresh (set_retry (request_interceptor store cfg))
                       (Some 401%nat)) store (Answer st2 body) _ _ _ _
             (refresh_success _ _ st2 body store Hok2 Hb)).
  fold sent. fold (replayed body store sent).
  erewrite run_step;
    [|cbn [Api.resume]; unfold on_response, response_error; rewrite Hok3;
      destruct (replayed_rest body store sent) as (_ & _ & _ & _ & ->);
      rewrite andb_false_r; reflexivity].
  rewrite run_settled. reflexivity.
Qed.

(** A refresh response that is ok but carries neither token is stored all
    the same: both credentials become the text [undefined], and the replay
    goes out with that as its bearer. *)
Theorem refresh_without_tokens_stores_undefined (cfg : Config)
    (status : option nat) (st : nat) (body : jsval)
    (store : gmap string string) :
  ok_status st = true ->
  is_nullish body = false ->
  get_prop body "access_token" = JUndefined ->
  get_prop body "refresh_token" = JUndefined ->
  cred_view (on_refresh cfg status (Answer st body) store).1.2
  = (Some "undefined", Some "undefined")
  /\ exists c,
       (on_refresh cfg status (Answer st body) store).2 = [ESend c]
       /\ headers c !! "Authorization" = Some "Bearer undefined".
Proof.
  intros Hok Hb Ha Hrf. rewrite (refresh_success _ _ _ _ _ Hok Hb).
  cbn [fst snd]. unfold refreshed. rewrite Ha, Hrf. cbn [Json.ToString].
  split; [apply cred_view_set|]. eexists. split; [reflexivity|].
  unfold request_interceptor, getItem, setItem.
  rewrite lookup_insert_ne by discriminate. rewrite lookup_insert_eq.
  cbn. apply lookup_insert_eq.
Qed.

Lemma refresh_failure (cfg : Config) (status : option nat) (reply : NetReply)
    (store : gmap string string) :
  refresh_rejected reply = true ->
  on_refresh cfg status reply store
  = (Settled (Rejected (mkError cfg status)), session_cleared store, [ERedirect]).
Proof.
  intros H. unfold Api.on_refresh, refresh_failed.
  destruct reply as [st b|]; cbn in H; [|reflexivity].
  destruct (ok_status st); cbn in H; [rewrite H|]; reflexivity.
Qed.

(** Every way the refresh exchange can fail ends the session the same way:
    a status outside 2xx, no answer, or an ok response with a null body all
    clear both credentials, redirect once and reject the original error. *)
Theorem failed_refresh_ends_session (cfg : Config) (status : option nat)
    (reply : NetReply) (store : gmap string string) (rest : list NetReply) :
  refresh_rejected reply = true ->
  run (AwaitRefresh cfg status) store (reply :: rest)
  = (Settled (Rejected (mkError cfg status)), session_cleared store, [ERedirect])
  /\ cred_view (session_cleared store) = (None, None).
Proof.
  intros H. split; [|apply cred_view_cleared].
  rewrite (run_step (AwaitRefresh cfg status) store reply _ _ _ _
             (refresh_failure cfg status reply store H)).
  rewrite run_settled. reflexivity.
Qed.

Lemma resume_redirect_credit ph reply store :
  (count is_redirect (resume ph reply store).2
   + redirect_credit (resume ph reply store).1.1
   <= count is_refresh (resume ph reply store).2 + redirect_credit ph)%nat.
Proof.
  destruct ph as [c|c st|r]; cbn [Api.resume]; [| |cbn; lia].
  - unfold on_response, response_error.
    destruct reply as [s b|]; [destruct (ok_status s)|]; cbn; try lia;
      (destruct (bool_decide _ && negb _)%bool; [|cbn; lia];
       destruct (getItem "refresh_token" store) as [t|]; [|cbn; lia];
       destruct (is_empty t); cbn; lia).
  - unfold Api.on_refresh, refresh_failed, api.
    destruct reply as [s b|]; [destruct (ok_status s); [destruct (is_nullish b)|]|];
      cbn; lia.
Qed.

Lemma resume_redirect_clears ph reply store :
  count is_redirect (resume ph reply store).2 = 0%nat
  \/ (is_settled (resume ph reply store).1.1 = true
      /\ cred_view (resume ph reply store).1.2 = (None, None)).
Proof.
  destruct ph as [c|c st|r]; cbn [Api.resume]; [| |left; reflexivity].
  - left. unfold on_response, response_error.
    destruct reply as [s b|]; [destruct (ok_status s)|]; try reflexivity;
      (destruct (bool_decide _ && negb _)%bool; [|reflexivity];
       destruct (getItem "refresh_token" store) as [t|]; [|reflexivity];
       destruct (is_empty t); reflexivity).
  - unfold Api.on_refresh, refresh_failed, api.
    destruct reply as [s b|]; [destruct (ok_status s); [destruct (is_nullish b)|]|];
      try (right; split; [reflexivity|apply cred_view_cleared]).
    left. reflexivity.
Qed.

Lemma run_redirect_credit replies ph store :
  (count is_redirect (run ph store replies).2
   <= count is_refresh (run ph store replies).2 + redirect_credit ph)%nat.
Proof.
  revert ph store. induction replies as [|r rs IH]; intros ph store; simpl.
  - lia.
  - pose proof (resume_redirect_credit ph r store) as H.
    destruct (resume ph r store) as [[ph1 st1] ev1]. simpl in H.
    specialize (IH ph1 st1).
    destruct (run ph1 st1 rs) as [[ph2 st2] ev2]. simpl in *.
    rewrite !count_app. lia.
Qed.

Lemma run_redirect_clears replies ph store :
  count is_redirect (run ph store replies).2 = 0%nat
  \/ (is_settled (run ph store replies).1.1 = true
      /\ cred_view (run ph store replies).1.2 = (None, None)).
Proof.
  revert ph store. induction replies as [|r rs IH]; intros ph store; simpl.
  - left. reflexivity.
  - pose proof (resume_redirect_clears ph r store) as H.
    destruct (resume ph r store) as [[ph1 st1] ev1] eqn:E. simpl in H.
    destruct H as [H|[Hs Hc]].
    + specialize (IH ph1 st1).
      destruct (run ph1 st1 rs) as [[ph2 st2] ev2]. simpl in *.
      rewrite count_app, H. destruct IH as [IH|IH]; [left; lia|right; exact IH].
    + destruct ph1 as [| |res]; try discriminate.
      rewrite run_settled. simpl. right. split; [reflexivity|assumption].
Qed.

(** A call sends the page to the login route only after it has made a
    refresh exchange, and when it has redirected it is settled and both
    credentials are gone. *)
Theorem redirect_only_after_refresh (cfg : Config)
    (store : gmap string string) (replies : list NetReply) :
  (count is_redirect (call cfg store replies).2
   <= count is_refresh (call cfg store replies).2)%nat
  /\ (count is_redirect (call cfg store replies).2 = 0%nat
      \/ (is_settled (call cfg store replies).1.1 = true
          /\ cred_view (call cfg store replies).1.2 = (None, None))).
Proof.
  pose proof (run_redirect_credit replies
                (AwaitResponse (request_interceptor store cfg)) store) as H1.
  pose proof (run_redirect_clears replies
                (AwaitResponse (request_interceptor store cfg)) store) as H2.
  unfold Api.call, api.
  destruct (run _ store replies) as [[ph st] evs]. cbn in *.
  split; [lia|assumption].
Qed.

Lemma resume_other_key ph reply store (k : string) :
  is_credential_key k = false ->
  (resume ph reply store).1.2 !! k = store !! k.
Proof.
  intros Hk. destruct (credential_key_ne k Hk) as [Ha Hr].
  destruct ph as [c|c st|r]; cbn [Api.resume]; [| |reflexivity].
  - unfold on_response, response_error.
    destruct reply as [s b|]; [destruct (ok_status s)|]; try reflexivity;
      (destruct (bool_decide _ && negb _)%bool; [|reflexivity];
       destruct (getItem "refresh_token" store) as [t|]; [|reflexivity];
       destruct (is_empty t); reflexivity).
  - unfold Api.on_refresh, refresh_failed, api, setItem, removeItem.
    destruct reply as [s b|]; [destruct (ok_status s); [destruct (is_nullish b)|]|];
      cbn; rewrite ?lookup_insert_ne, ?lookup_delete_ne by assumption;
      reflexivity.
Qed.

Lemma act_other_key (a : Action) (s : System) (k : string) :
  is_credential_key k = false ->
  sys_store (act a s).1 !! k = sys_store s !! k.
Proof.
  intros Hk. destruct (credential_key_ne k Hk) as [Ha Hr].
  destruct a as [c|i reply|b|]; cbn [Api.act].
  - reflexivity.
  - destruct (sys_calls s !! i) as [ph|]; [|reflexivity].
    pose proof (resume_other_key ph reply (sys_store s) k Hk) as H.
    destruct (resume ph reply (sys_store s)) as [[ph' st'] evs]. exact H.
  - cbn. unfold login_stored, setItem. destruct (is_nullish b); [reflexivity|].
    rewrite !lookup_insert_ne by assumption. reflexivity.
  - cbn. unfold session_cleared, removeItem.
    rewrite !lookup_delete_ne by assumption. reflexivity.
Qed.

(** Calls, logins and logouts, in any number and any interleaving, never
    write or remove a key of the store other than the two credentials. *)
Theorem other_keys_are_never_touched (s0 : System) (acts : list Action)
    (k : string) :
  is_credential_key k = false ->
  sys_store (schedule acts s0).1 !! k = sys_store s0 !! k.
Proof.
  intros Hk. revert s0.
  induction acts as [|a rest IH]; intros s0; cbn [Api.schedule].
  - reflexivity.
  - pose proof (act_other_key a s0 k Hk) as Ha.
    destruct (act a s0) as [s1 ev1]. cbn [fst] in Ha.
    specialize (IH s1).
    destruct (schedule rest s1) as [s2 ev2]. cbn [fst] in *.
    rewrite IH. exact Ha.
Qed.

(** Nothing keeps two calls from refreshing at once: when two calls in
    flight both get a 401, each makes its own refresh exchange, both with
    the same stored refresh credential. *)
Theorem concurrent_401s_refresh_twice (c1 c2 : Config)
    (store : gmap string string) (rt : string) (b1 b2 : jsval) :
  _retry c1 = false ->
  _retry c2 = false ->
  getItem "refresh_token" store = Some rt ->
  is_empty rt = false ->
  (schedule [Start c1; Start c2;
             Deliver 0 (Answer 401 b1); Deliver 1 (Answer 401 b2)]
     (mkSystem store [])).2
  = [ESend (request_interceptor store c1); ESend (request_interceptor store c2);
     ERefresh rt; ERefresh rt].
Proof.
  intros H1 H2 Ht He. cbn [Api.schedule Api.act api sys_store sys_calls app].
  cbn [lookup list_lookup Api.resume].
  rewrite (first_401_starts_refresh c1 store rt b1 H1 Ht He).
  cbn [sys_store sys_calls insert list_insert lookup list_lookup Api.resume].
  rewrite (first_401_starts_refresh c2 store rt b2 H2 Ht He).
  reflexivity.
Qed.

(** And the two refreshes are not told apart afterwards: if the first one
    succeeds and the second one then fails, the failure clears the pair the
    first has just stored and redirects, while the replay of the first call
    is still in flight with the new access credential. *)
Theorem late_refresh_failure_wipes_new_pair (c1 c2 : Config)
    (store : gmap string string) (rt : string) (b1 b2 body : jsval)
    (st : nat) (late : NetReply) :
  _retry c1 = false ->
  _retry c2 = false ->
  getItem "refresh_token" store = Some rt ->
  is_empty rt = false ->
  ok_status st = true ->
  is_nullish body = false ->
  refresh_rejected late = true ->
  let final :=
    schedule [Start c1; Start c2;
              Deliver 0 (Answer 401 b1); Deliver 1 (Answer 401 b2);
              Deliver 0 (Answer st body); Deliver 1 late]
      (mkSystem store []) in
  cred_view (sys_store final.1) = (None, None)
  /\ count is_redirect final.2 = 1%nat
  /\ sys_calls final.1 !! 0%nat
     = Some (AwaitResponse (replayed body store (request_interceptor store c1)))
  /\ headers (replayed body store (request_interceptor store c1))
       !! "Authorization"
     = Some ("Bearer " +:+ ToString (get_prop body "access_token")).
Proof.
  intros H1 H2 Ht He Hok Hb Hlate final.
  assert (Hrun : final
    = (mkSystem (session_cleared (refreshed body store))
         [AwaitResponse (replayed body store (request_interceptor store c1));
          Settled (Rejected (mkError (set_retry (request_interceptor store c2))
                               (Some 401%nat)))],
       [ESend (request_interceptor store c1);
        ESend (request_interceptor store c2);
        ERefresh rt; ERefresh rt;
        ESend (replayed body store (request_interceptor store c1));
        ERedirect])).
  { unfold final. cbn [Api.schedule Api.act api sys_store sys_calls app].
    cbn [lookup list_lookup Api.resume].
    rewrite (first_401_starts_refresh c1 store rt b1 H1 Ht He).
    cbn [sys_store sys_calls insert list_insert lookup list_lookup Api.resume].
    rewrite (first_401_starts_refresh c2 store rt b2 H2 Ht He).
    cbn [sys_store sys_calls insert list_insert lookup list_lookup Api.resume].
    rewrite (refresh_success _ _ st body store Hok Hb).
    cbn [sys_store sys_calls insert list_insert lookup list_lookup Api.resume].
    rewrite (refresh_failure _ _ late (refreshed body store) Hlate).
    reflexivity. }
  rewrite Hrun. cbn [fst snd sys_store sys_calls].
  split; [apply cred_view_cleared|]. split; [reflexivity|].
  split; [reflexivity|apply replayed_header].
Qed.

End WithPlatform.

Lemma other_failures_pass_through_witness :
  call print_integer sample_config access_only [Answer 500 JNull]
  = (Settled (Rejected (mkError (request_interceptor access_only sample_config)
                          (Some 500%nat))),
     access_only, [ESend (request_interceptor access_only sample_config)]).
Proof.
  refine (proj1 (other_failures_pass_through print_integer sample_config
            access_only 500 JNull [] _ _)).
  - reflexivity.
  - lia.
Defined.

Lemma refreshed_call_succeeds_witness :
  call print_integer sample_config both_tokens
    [Answer 401 JNull; Answer 200 (token_body "A1" "R1"); Answer 200 (JStr "me")]
  = (Settled (Fulfilled 200 (JStr "me")),
     refreshed print_integer (token_body "A1" "R1") both_tokens,
     [ESend (request_interceptor both_tokens sample_config);
      ERefresh "R0";
      ESend (replayed print_integer (token_body "A1" "R1") both_tokens
               (request_interceptor both_tokens sample_config))]).
Proof.
  refine (proj1 (refreshed_call_succeeds print_integer sample_config
            both_tokens "R0" JNull (token_body "A1" "R1") (JStr "me")
            200 200 [] _ _ _ _ _ _)).
  - reflexivity.
  - vm_compute; reflexivity.
  - reflexivity.
  - reflexivity.
  - reflexivity.
  - reflexivity.
Defined.

Lemma replay_failure_keeps_new_pair_witness :
  cred_view (refreshed print_integer (token_body "A1" "R1") both_tokens)
  = pair_of print_integer (token_body "A1" "R1").
Proof.
  refine (proj2 (replay_failure_keeps_new_pair print_integer sample_config
            both_tokens "R0" JNull (token_body "A1" "R1") JNull
            200 403 [] _ _ _ _ _ _)).
  - reflexivity.
  - vm_compute; reflexivity.
  - reflexivity.
  - reflexivity.
  - reflexivity.
  - reflexivity.
Defined.

Lemma refresh_without_tokens_stores_undefined_witness :
  cred_view
    (on_refresh print_integer (set_retry sample_config) (Some 401%nat)
       (Answer 200 (JObj [])) both_tokens).1.2
  = (Some "undefined", Some "undefined").
Proof.
  refine (proj1 (refresh_without_tokens_stores_undefined print_integer
            (set_retry sample_config) (Some 401%nat) 200 (JObj [])
            both_tokens _ _ _ _)).
  - reflexivity.
  - reflexivity.
  - reflexivity.
  - reflexivity.
Defined.

Lemma failed_refresh_ends_session_witness :
  run print_integer (AwaitRefresh (set_retry sample_config) (Some 401%nat))
    both_tokens [Answer 200 JNull]
  = (Settled (Rejected (mkError (set_retry sample_config) (Some 401%nat))),
     session_cleared both_tokens, [ERedirect]).
Proof.
  refine (proj1 (failed_refresh_ends_session print_integer
            (set_retry sample_config) (Some 401%nat) (Answer 200 JNull)
            both_tokens [] _)).
  reflexivity.
Defined.

Lemma other_keys_are_never_touched_witness :
  sys_store
    (schedule print_integer
       [Start sample_config; Deliver 0 (Answer 401 JNull);
        Deliver 0 (Answer 401 JNull); SessionCleared]
       (mkSystem (<["theme" := "dark"]> both_tokens) [])).1 !! "theme"
  = (<["theme" := "dark"]> both_tokens : gmap string string) !! "theme".
Proof.
  refine (other_keys_are_never_touched print_integer
            (mkSystem (<["theme" := "dark"]> both_tokens) [])
            [Start sample_config; Deliver 0 (Answer 401 JNull);
             Deliver 0 (Answer 401 JNull); SessionCleared] "theme" _).
  reflexivity.
Defined.

Lemma concurrent_401s_refresh_twice_witness :
  (schedule print_integer
     [Start sample_config; Start sample_config;
      Deliver 0 (Answer 401 JNull); Deliver 1 (Answer 401 JNull)]
     (mkSystem both_tokens [])).2
  = [ESend (request_interceptor both_tokens sample_config);
     ESend (request_interceptor both_tokens sample_config);
     ERefresh "R0"; ERefresh "R0"].
Proof.
  apply (concurrent_401s_refresh_twice print_integer sample_config
           sample_config both_tokens "R0" JNull JNull).
  - reflexivity.
  - reflexivity.
  - vm_compute; reflexivity.
  - reflexivity.
Defined.

Lemma late_refresh_failure_wipes_new_pair_witness :
  cred_view
    (sys_store
       (schedule print_integer
          [Start sample_config; Start sample_config;
           Deliver 0 (Answer 401 JNull); Deliver 1 (Answer 401 JNull);
           Deliver 0 (Answer 200 (token_body "A1" "R1"));
           Deliver 1 (Answer 401 JNull)]
          (mkSystem both_tokens [])).1)
  = (None, None).
Proof.
  refine (proj1 (late_refresh_failure_wipes_new_pair print_integer
            sample_config sample_config both_tokens "R0" JNull JNull
            (token_body "A1" "R1") 200 (Answer 401 JNull) _ _ _ _ _ _ _)).
  - reflexivity.
  - reflexivity.
  - vm_compute; reflexivity.
  - reflexivity.
  - reflexivity.
  - reflexivity.
  - reflexivity.
Defined.

End RefreshMore.

(* ===================================================================== *)
(** * The session of the signed-in user                                   *)
(* ===================================================================== *)

Module AuthFacts.
Import Text Json Store Api Auth Routes Samples ApiFacts.

(** The flags are nested: an admin is premium, and whoever is premium is
    authenticated, for every value the user state can hold. *)
Theorem role_flags_are_nested (a : AuthState) :
  implb (isAdmin a) (isPremium a) = true
  /\ implb (isPremium a) (isAuthenticated a) = true.
Proof.
  unfold isAdmin, isPremium, isAuthenticated, role_of.
  destruct (user a) as [| |b|n|s|l|fs]; cbn; try (split; reflexivity).
  - destruct (is_string _ "premium"), (is_string _ "admin"); split; reflexivity.
Qed.

(** Logging out ends the session on this side whatever the server said or
    did not say: both credentials are removed, the user is gone, no flag
    holds, requests no longer get an Authorization header, and a guarded
    route sends to the login page. *)
Theorem logout_always_ends_session (r : Awaited) (store : gmap string string)
    (a : AuthState) (cfg : Config) :
  loading a = false ->
  let after := logout_settled r store a in
  cred_view after.2 = (None, None)
  /\ isAuthenticated after.1 = false
  /\ isPremium after.1 = false
  /\ isAdmin after.1 = false
  /\ request_interceptor after.2 cfg = cfg
  /\ ProtectedRoute after.1 = Navigate "/login".
Proof.
  intros Hl after. unfold after, logout_settled. cbn [fst snd].
  split; [apply cred_view_cleared|]. repeat split.
  - unfold request_interceptor, getItem, removeItem.
    rewrite lookup_delete_ne by discriminate. rewrite lookup_delete_eq.
    reflexivity.
  - unfold ProtectedRoute. cbn. rewrite Hl. reflexivity.
Qed.

Section WithPlatform.
Variable nts : JNumber -> string.

Local Abbreviation ToString := (Json.ToString nts).
Local Abbreviation sign_in_settled := (Auth.sign_in_settled nts).

(** A sign-in (login or registration) that the server accepts: both
    credentials of the response are stored, the user of the response
    becomes the user, the earlier error is cleared, the login form goes to
    the chat, and from then on requests through [api] carry the new access
    credential. *)
Theorem sign_in_success (fallback : string) (data : jsval)
    (store : gmap string string) (a : AuthState) (f : LoginForm)
    (cfg : Config) :
  is_nullish data = false ->
  is_empty (ToString (get_prop data "access_token")) = false ->
  let r := sign_in_settled fallback (Resolved data) store (sign_in_start a) in
  cred_view r.1.2 = Api.pair_of nts data
  /\ user r.1.1 = get_prop data "user"
  /\ error r.1.1 = JNull
  /\ r.2 = Returned (get_prop data "user")
  /\ (handleSubmit_settled r.2 f).2 = Some "/"
  /\ headers (request_interceptor r.1.2 cfg) !! "Authorization"
     = Some ("Bearer " +:+ ToString (get_prop data "access_token")).
Proof.
  intros Hn He r. unfold r, Auth.sign_in_settled. rewrite Hn. cbn [fst snd].
  split; [apply cred_view_set|]. repeat split.
  unfold request_interceptor, getItem, setItem.
  rewrite lookup_insert_ne by discriminate. rewrite lookup_insert_eq, He.
  cbn. apply lookup_insert_eq.
Qed.

(** [login] and [register] after their awaited call has failed, by a
    rejection or by a response without a body.  The [catch] block writes
    nothing to the store, which stays as the call left it, and leaves the
    user and the loading flag alone; the error state is the detail of the
    response when that is truthy and the stock message otherwise, so it is
    always truthy; the text of that message is raised to the form, which
    shows it and does not navigate.  With no response at all, or a null
    body, the message is the stock one. *)
Theorem sign_in_failure (fallback : string) (response_data : jsval)
    (store : gmap string string) (a : AuthState) (f : LoginForm) :
  is_empty fallback = false ->
  let r := sign_in_settled fallback (Thrown response_data) store a in
  let message :=
    if truthy (detail_of response_data) then detail_of response_data
    else JStr fallback in
  r.1.2 = store
  /\ user r.1.1 = user a
  /\ loading r.1.1 = loading a
  /\ error r.1.1 = message
  /\ truthy (error r.1.1) = true
  /\ r.2 = Raised (ToString message)
  /\ handleSubmit_settled r.2 f = (mkLoginForm (ToString message) false, None)
  /\ sign_in_settled fallback (Thrown JUndefined) store a
     = (set_error (JStr fallback) a, store, Raised fallback)
  /\ sign_in_settled fallback (Resolved JNull) store a
     = (set_error (JStr fallback) a, store, Raised fallback).
Proof.
  intros Hf r message.
  unfold r, message, Auth.sign_in_settled, failure_message, or_else.
  cbn [fst snd is_nullish detail_of truthy].
  destruct (truthy (detail_of response_data)) eqn:Ht;
    cbn [fst snd error user loading set_error handleSubmit_settled];
    repeat split; try assumption; cbn; rewrite ?Hf; reflexivity.
Qed.

End WithPlatform.

(** [checkAuth] always lowers the loading flag, on every path; it calls the
    server exactly when the store holds a non-empty access credential, and
    otherwise changes nothing else. *)
Theorem checkAuth_always_stops_loading (store later : gmap string string)
    (a : AuthState) (r : Awaited) :
  (checkAuth_start store a).2 = present (getItem "access_token" store)
  /\ loading (if (checkAuth_start store a).2
              then (checkAuth_settled r later (checkAuth_start store a).1).1
              else (checkAuth_start store a).1) = false
  /\ ((checkAuth_start store a).2 = true
      \/ (checkAuth_start store a).1 = set_loading false a).
Proof.
  unfold checkAuth_start, present.
  destruct (getItem "access_token" store) as [t|]; [destruct (is_empty t)|];
    cbn; repeat split; try (by left); try (by right);
    destruct r; reflexivity.
Qed.

(** On start-up with a stored access credential that the server no longer
    accepts: both credentials are removed and, once [checkAuth] is done,
    the guarded routes send to the login page and the public ones show
    their page.  With one the server accepts, the guarded routes show their
    page as soon as the answer is a truthy user. *)
Theorem rejected_token_sends_to_login (store later : gmap string string)
    (response_data data : jsval) :
  present (getItem "access_token" store) = true ->
  truthy data = true ->
  let started := checkAuth_start store Auth.initial in
  let rejected := checkAuth_settled (Thrown response_data) later started.1 in
  let accepted := checkAuth_settled (Resolved data) later started.1 in
  started = (Auth.initial, true)
  /\ cred_view rejected.2 = (None, None)
  /\ ProtectedRoute rejected.1 = Navigate "/login"
  /\ PublicRoute rejected.1 = Children
  /\ accepted.2 = later
  /\ ProtectedRoute accepted.1 = Children
  /\ PublicRoute accepted.1 = Navigate "/".
Proof.
  intros Hp Hd started rejected accepted.
  assert (Hs : started = (Auth.initial, true)).
  { unfold started, checkAuth_start. unfold present in Hp.
    destruct (getItem "access_token" store) as [t|]; [|discriminate].
    destruct (is_empty t); [discriminate|reflexivity]. }
  unfold rejected, accepted. rewrite Hs. cbn [fst snd checkAuth_settled].
  split; [reflexivity|]. split; [apply cred_view_cleared|].
  unfold ProtectedRoute, PublicRoute, isAuthenticated. cbn. rewrite Hd.
  repeat split.
Qed.

Lemma logout_always_ends_session_witness :
  cred_view (logout_settled (Thrown JUndefined) both_tokens
               (mkAuth (JObj [("role", JStr "admin")]) false JNull)).2
  = (None, None).
Proof.
  refine (proj1 (logout_always_ends_session (Thrown JUndefined) both_tokens
            (mkAuth (JObj [("role", JStr "admin")]) false JNull)
            sample_config _)).
  reflexivity.
Defined.

Lemma sign_in_success_witness :
  cred_view
    (login_settled print_integer (Resolved (token_body "A1" "R1")) ∅
       (sign_in_start Auth.initial)).1.2
  = (Some "A1", Some "R1").
Proof.
  refine (proj1 (sign_in_success print_integer "Login failed"
            (token_body "A1" "R1") ∅ Auth.initial
            (mkLoginForm EmptyString true) sample_config _ _)).
  - reflexivity.
  - reflexivity.
Defined.

Lemma sign_in_failure_witness :
  (login_settled print_integer
     (Thrown (JObj [("detail", JStr "Incorrect email or password")]))
     access_only Auth.initial).1.2
  = access_only.
Proof.
  refine (proj1 (sign_in_failure print_integer "Login failed"
            (JObj [("detail", JStr "Incorrect email or password")])
            access_only Auth.initial (mkLoginForm EmptyString true) _)).
  reflexivity.
Defined.

Lemma rejected_token_sends_to_login_witness :
  ProtectedRoute
    (checkAuth_settled (Thrown JUndefined) access_only
       (checkAuth_start access_only Auth.initial).1).1
  = Navigate "/login".
Proof.
  refine (proj1 (proj2 (proj2 (rejected_token_sends_to_login access_only
            access_only JUndefined (JObj []) _ _)))).
  - vm_compute; reflexivity.
  - reflexivity.
Defined.

End AuthFacts.

(* ===================================================================== *)
(** * The sidebar and the permissions of a new key                        *)
(* ===================================================================== *)

Module PageFacts.
Import Text Json Sidebar Developer.

(** Whatever the current path, at most one navigation item is shown as
    active; every path that starts with /chat, and the root, light up the
    chat item. *)
Theorem at_most_one_item_active (pathname rest : string) :
  (length (List.filter (isActive pathname) navItems) <= 1)%nat
  /\ isActive ("/chat" +:+ rest) "/" = true
  /\ isActive "/" "/" = true.
Proof.
  split; [|split; [destruct rest|]; reflexivity].
  unfold navItems, isActive. cbn [List.filter String.eqb Ascii.eqb Bool.eqb].
  destruct (String.eqb pathname "/documents") eqn:E1;
    [apply String.eqb_eq in E1; subst; cbn; lia|].
  destruct (String.eqb pathname "/workspaces") eqn:E2;
    [apply String.eqb_eq in E2; subst; cbn; lia|].
  destruct (String.eqb pathname "/developer") eqn:E3;
    [apply String.eqb_eq in E3; subst; cbn; lia|].
  destruct (_ || _)%bool; cbn; lia.
Qed.

Lemma filter_ne_absent (perm : string) (l : list string) :
  perm ∉ l -> filter (fun p => p <> perm) l = l.
Proof.
  induction l as [|x l IH]; intros H; [reflexivity|].
  apply not_elem_of_cons in H as [Hx Hl].
  rewrite filter_cons_True by congruence. rewrite IH by assumption.
  reflexivity.
Qed.

(** Toggling a permission flips just that permission: afterwards it is in
    the list exactly when it was not, every other permission is as before,
    the list has no duplicates if it had none, and the name and the expiry
    of the key are untouched.  Toggling a permission that was absent twice
    gives back the very same key. *)
Theorem toggle_flips_one_permission (perm : string) (k : NewKey) :
  NoDup (permissions k) ->
  NoDup (permissions (togglePermission perm k))
  /\ (perm ∈ permissions (togglePermission perm k) <-> perm ∉ permissions k)
  /\ (forall q, q <> perm ->
        (q ∈ permissions (togglePermission perm k) <-> q ∈ permissions k))
  /\ name (togglePermission perm k) = name k
  /\ expires_days (togglePermission perm k) = expires_days k
  /\ (perm ∈ permissions k
      \/ togglePermission perm (togglePermission perm k) = k).
Proof.
  intros Hnd. unfold togglePermission. cbn [permissions name expires_days].
  case_bool_decide as Hin.
  - split; [by apply NoDup_filter|]. split.
    { rewrite list_elem_of_filter. intuition congruence. }
    split; [|split; [reflexivity|split; [reflexivity|by left]]].
    intros q Hq. rewrite list_elem_of_filter. intuition congruence.
  - split.
    { apply NoDup_app. split; [assumption|]. split; [|apply NoDup_singleton].
      intros x Hx Hx'. apply list_elem_of_singleton in Hx'. by subst. }
    split.
    { rewrite elem_of_app, list_elem_of_singleton. intuition congruence. }
    split.
    { intros q Hq. rewrite elem_of_app, list_elem_of_singleton. intuition congruence. }
    split; [reflexivity|]. split; [reflexivity|]. right.
    rewrite bool_decide_eq_true_2
      by (apply elem_of_app; right; by apply list_elem_of_singleton).
    rewrite filter_app, filter_ne_absent by assumption.
    rewrite filter_cons_False by (intros H; by apply H).
    rewrite filter_nil, app_nil_r. destruct k; reflexivity.
Qed.

Lemma toggle_flips_one_permission_witness :
  NoDup (permissions (togglePermission "models" Developer.initial)).
Proof.
  refine (proj1 (toggle_flips_one_permission "models" Developer.initial _)).
  apply NoDup_singleton.
Defined.

End PageFacts.
